(** * deepagents middleware: file-state reducer, tool-result eviction,
      read_file post-processing, memory loading and skill layering.

    A shallow embedding of
      - [libs/deepagents/src/middleware/fs.ts]
      - [libs/deepagents/src/middleware/memory.ts]
      - the skills middleware of the same directory
    together with the properties the specification states about them.

    JavaScript strings are lists of characters, objects used as dictionaries
    are [gmap]s, a [Map] (whose iteration order is observable) is an
    association list in insertion order, and asynchronous backend calls are
    computations in a small state-and-exception monad. *)

From Stdlib Require Import ZArith Ascii String List Lia.
From stdpp Require Import gmap strings list fin_maps.

Abbreviation str := (list ascii).

(** ** JavaScript string and array primitives used by the middleware *)
Module JS.

Definition lit (s : string) : str := list_ascii_of_string s.

Definition nl : ascii := "010"%char.
Definition dollar : ascii := "$"%char.

(** [s.length] *)
Definition strlen (s : str) : Z := Z.of_nat (length s).

(** Truthiness of a string value: only the empty string is falsy. *)
Definition truthy (s : str) : bool :=
  match s with [] => false | _ :: _ => true end.

(** Truthiness of a possibly-undefined string. *)
Definition truthy_opt (o : option str) : bool :=
  match o with Some s => truthy s | None => false end.

(** [a || b] where [a] may be undefined and [b] is a string. *)
Definition or_else (a : option str) (b : str) : str :=
  match a with
  | Some s => if truthy s then s else b
  | None => b
  end.

(** [s.split(re)] for a pattern that matches exactly the one-character
    separators accepted by [is_sep]. *)
Fixpoint split_by (is_sep : ascii -> bool) (s : str) : list str :=
  match s with
  | [] => [[]]
  | c :: r =>
      if is_sep c then [] :: split_by is_sep r
      else match split_by is_sep r with
           | h :: t => (c :: h) :: t
           | [] => [[c]]
           end
  end.

(** [s.split(sep)] for a one-character separator. *)
Definition split (sep : ascii) (s : str) : list str :=
  split_by (fun c => bool_decide (c = sep)) s.

(** A line: a string without a newline. *)
Definition no_nl (l : str) : Prop :=
  Forall (fun c => bool_decide (c = nl) = false) l.

(** [parts.join(sep)] *)
Fixpoint join (sep : str) (parts : list str) : str :=
  match parts with
  | [] => []
  | [p] => p
  | p :: rest => p ++ sep ++ join sep rest
  end.

(** Relative index of [Array.prototype.slice]: negative counts from the
    end, and the result is clamped to [0, len]. *)
Definition rel_index (len i : Z) : Z :=
  if (i <? 0)%Z then Z.max (len + i) 0 else Z.min i len.

(** [arr.slice(start, end)]; [None] is an omitted [end]. *)
Definition slice {A} (start : Z) (stop : option Z) (l : list A) : list A :=
  let len := Z.of_nat (length l) in
  let k := rel_index len start in
  let e := match stop with Some e => rel_index len e | None => len end in
  take (Z.to_nat (e - k)) (drop (Z.to_nat k) l).

(** [s.substring(0, e)]: a negative [e] is treated as 0, one beyond the
    length as the length. *)
Definition substring0 (e : Z) (s : str) : str := take (Z.to_nat e) s.

(** [s.startsWith(p)] *)
Fixpoint startsWith (p s : str) : bool :=
  match p, s with
  | [], _ => true
  | _ :: _, [] => false
  | a :: p', b :: s' => if decide (a = b) then startsWith p' s' else false
  end.

Fixpoint strip_prefix (p s : str) : option str :=
  match p, s with
  | [], _ => Some s
  | _ :: _, [] => None
  | a :: p', b :: s' => if decide (a = b) then strip_prefix p' s' else None
  end.

(** First occurrence of [pat] in [s]: the text before it and after it. *)
Fixpoint find_first (pat s : str) : option (str * str) :=
  match strip_prefix pat s with
  | Some rest => Some ([], rest)
  | None =>
      match s with
      | [] => None
      | c :: s' =>
          match find_first pat s' with
          | Some (pre, post) => Some (c :: pre, post)
          | None => None
          end
      end
  end.

(** GetSubstitution of ECMA-262 for a string pattern (no capture groups):
    in the replacement text [$$] is a dollar sign, [$&] the matched text,
    [$`] the text before the match and [$'] the text after it; any other
    character, a dollar sign included, stands for itself. *)
Fixpoint GetSubstitution (matched pre post repl : str) : str :=
  match repl with
  | [] => []
  | c :: r =>
      if decide (c = dollar) then
        match r with
        | d :: r' =>
            if decide (d = "$"%char) then
              dollar :: GetSubstitution matched pre post r'
            else if decide (d = "&"%char) then
              matched ++ GetSubstitution matched pre post r'
            else if decide (d = "`"%char) then
              pre ++ GetSubstitution matched pre post r'
            else if decide (d = "'"%char) then
              post ++ GetSubstitution matched pre post r'
            else c :: GetSubstitution matched pre post r
        | [] => [c]
        end
      else c :: GetSubstitution matched pre post r
  end.

(** [s.replace(pat, repl)] with a string pattern: the first occurrence
    only, the replacement text expanded by [GetSubstitution]. *)
Definition replace (pat repl s : str) : str :=
  match find_first pat s with
  | Some (pre, post) => pre ++ GetSubstitution pat pre post repl ++ post
  | None => s
  end.

(** The replacement text holds none of the patterns [$$], [$&], [$`] and
    [$']; a dollar sign before any other character is allowed. *)
Fixpoint pattern_free (s : str) : bool :=
  match s with
  | [] => true
  | c :: r =>
      (if decide (c = dollar) then
         match r with
         | d :: _ =>
             negb (bool_decide (d ∈ ["$"%char; "&"%char; "`"%char; "'"%char]))
         | [] => true
         end
       else true)
      && pattern_free r
  end.

Definition digit (d : Z) : ascii := ascii_of_nat (48 + Z.to_nat d).

(** Decimal digits of a non-negative integer, most significant first;
    [fuel] bounds the number of digits. *)
Fixpoint digits (fuel : nat) (n : Z) (acc : str) : str :=
  match fuel with
  | O => acc
  | S f =>
      let acc' := digit (n mod 10) :: acc in
      if (n <? 10)%Z then acc' else digits f (n / 10) acc'
  end.

(** [String(n)] / template interpolation of an integer. *)
Definition Number_toString (n : Z) : str :=
  if (n <? 0)%Z then "-"%char :: digits (S (Z.to_nat (Z.log2 (- n)))) (- n) []
  else digits (S (Z.to_nat (Z.log2 n))) n [].

(** The number a string of decimal digits denotes. *)
Definition decimal_value (s : str) : Z :=
  foldl (fun acc c => 10 * acc + (Z.of_nat (nat_of_ascii c) - 48))%Z 0%Z s.

End JS.

(** ** Effects: asynchronous backend calls, exceptions and the console *)
Module Eff.

(** A thrown [Error]. *)
Record JsError := mkError { message : str }.

Inductive outcome (A : Type) : Type :=
| Ok (a : A)
| Thrown (e : JsError).
Arguments Ok {A} a.
Arguments Thrown {A} e.

Inductive LogLevel := LogDebug | LogWarn.

(** One call of [console.debug] / [console.warn]: the text and the error
    object passed along, if any. *)
Record LogEntry := mkLog {
  log_level : LogLevel;
  log_text : str;
  log_error : option JsError
}.

(** What a computation can touch: the storage behind the backend and the
    console. *)
Record Sys (World : Type) := mkSys {
  world : World;
  console : list LogEntry
}.
Arguments mkSys {World} world console.
Arguments world {World} s.
Arguments console {World} s.

(** An awaited computation: it either resolves or rejects, and leaves a
    new system state. *)
Definition M (World A : Type) : Type := Sys World -> outcome A * Sys World.

(** A backend operation: it sees and changes the storage only. *)
Definition BackendOp (World A : Type) : Type := World -> outcome A * World.

Definition ret {W A} (a : A) : M W A := fun s => (Ok a, s).

Definition bind {W A B} (m : M W A) (k : A -> M W B) : M W B :=
  fun s =>
    match m s with
    | (Ok a, s') => k a s'
    | (Thrown e, s') => (Thrown e, s')
    end.

Definition throw {W A} (e : JsError) : M W A := fun s => (Thrown e, s).

(** [try { m } catch (error) { handler error }] *)
Definition try_catch {W A} (m : M W A) (handler : JsError -> M W A) : M W A :=
  fun s =>
    match m s with
    | (Ok a, s') => (Ok a, s')
    | (Thrown e, s') => handler e s'
    end.

(** [await op] for a backend operation. *)
Definition await {W A} (op : BackendOp W A) : M W A :=
  fun s =>
    let '(r, w') := op (world s) in
    (r, mkSys w' (console s)).

Definition console_debug {W} (text : str) (e : option JsError) : M W unit :=
  fun s => (Ok tt, mkSys (world s) (console s ++ [mkLog LogDebug text e])).

End Eff.

Declare Scope js_scope.
Delimit Scope js_scope with js.
Notation "'let*' x ':=' m 'in' k" := (Eff.bind m (fun x => k))
  (at level 10, x name, m at level 100, k at level 200) : js_scope.
Notation "'let*' ' pat ':=' m 'in' k" :=
  (Eff.bind m (fun x => match x with pat => k end))
  (at level 10, pat pattern, m at level 100, k at level 200) : js_scope.

(** ** Data model: the backend protocol and the agent state *)
Module Types.
Import Eff.

Record FileData := mkFileData {
  content : list str;
  created_at : str;
  modified_at : str
}.

(** [FilesRecord = Record<string, FileData>] and
    [FilesRecordUpdate = Record<string, FileData | null>]: [None] as a
    value is [null], the deletion marker. *)
Abbreviation FilesRecord := (gmap str FileData).
Abbreviation FilesRecordUpdate := (gmap str (option FileData)).

(** Result of [backend.write]; the fields the middleware reads. *)
Record WriteResult := mkWriteResult {
  error : option str;
  filesUpdate : option FilesRecordUpdate
}.

(** One element of the array [backend.downloadFiles] resolves to. *)
Record FileDownloadResponse := mkDownload {
  dl_error : option str;
  dl_content : option (list Byte.byte)
}.

Record FileInfo := mkFileInfo {
  fi_path : str;
  is_dir : option bool
}.

(** The operations of [BackendProtocol] the middleware calls, over the
    storage [World]. [downloadFiles] is optional. *)
Record BackendProtocol (World : Type) := mkBackend {
  lsInfo : str -> BackendOp World (list FileInfo);
  read : str -> option Z -> option Z -> BackendOp World str;
  write : str -> str -> BackendOp World WriteResult;
  downloadFiles :
    option (list str -> BackendOp World (list FileDownloadResponse))
}.
Arguments mkBackend {World} _ _ _ _.
Arguments lsInfo {World} _ _ _.
Arguments read {World} _ _ _ _ _.
Arguments write {World} _ _ _ _.
Arguments downloadFiles {World} _.

(** An option of a middleware: omitted, [null], or a value. Only an
    omitted option takes its default. *)
Inductive Nullable (A : Type) : Type :=
| Undefined
| Null
| Value (a : A).
Arguments Undefined {A}.
Arguments Null {A}.
Arguments Value {A} a.

(** [SkillMetadata] / [SkillMetadataEntry]. *)
Record SkillMetadata := mkSkill {
  name : str;
  description : str;
  path : str;
  license : option str;
  compatibility : option str;
  metadata : option (gmap str str);
  allowedTools : option (list str)
}.

(** The channels of the agent state the three middlewares declare. *)
Record AgentState := mkState {
  files : option FilesRecord;
  memoryContents : option (gmap str str);
  skillsMetadata : option (list SkillMetadata)
}.

(** The state object [{}]. *)
Definition empty_state : AgentState := mkState None None None.

Record StateAndStore (Store : Type) := mkStateAndStore {
  sas_state : AgentState;
  sas_store : option Store
}.
Arguments mkStateAndStore {Store} _ _.

(** [BackendProtocol | BackendFactory] *)
Inductive BackendOrFactory (World Store : Type) : Type :=
| BackendInstance (b : BackendProtocol World)
| BackendFactory (f : StateAndStore Store -> BackendProtocol World).
Arguments BackendInstance {World Store} b.
Arguments BackendFactory {World Store} f.

End Types.

(** What the middleware uses but this development does not define: the
    storage and the store, the default [StateBackend], and the helpers of
    [backends/utils.ts] and of the platform. *)
Class Platform := {
  World : Type;
  Store : Type;
  (** [new StateBackend(stateAndStore)] *)
  StateBackend : Types.StateAndStore Store -> Types.BackendProtocol World;
  (** [sanitizeToolCallId] of [backends/utils.ts] *)
  sanitizeToolCallId : str -> str;
  (** How [formatContentWithLineNumbers] renders the number in front of a
      line. *)
  lineNumberPrefix : Z -> str;
  (** [new TextDecoder().decode(bytes)] *)
  TextDecoder_decode : list Byte.byte -> str;
  (** [parseSkillMetadataFromContent(content, skillPath, directoryName)];
      its frontmatter is read by the [yaml] package. *)
  parseSkillMetadataFromContent : str -> str -> str -> option Types.SkillMetadata
}.

(** ** [middleware/fs.ts] *)
Module Fs.
Import JS Eff Types.
Local Open Scope Z_scope.
Local Open Scope js_scope.

Definition TOOLS_EXCLUDED_FROM_EVICTION : list str :=
  [lit "ls"; lit "glob"; lit "grep"; lit "read_file"; lit "edit_file";
   lit "write_file"].

Definition NUM_CHARS_PER_TOKEN : Z := 4.

Definition DEFAULT_READ_LINE_OFFSET : Z := 0.
Definition DEFAULT_READ_LINE_LIMIT : Z := 100.

Definition READ_FILE_TRUNCATION_MSG : str :=
  [nl; nl] ++
  lit "[Output was truncated due to size limits. The file content is very large. Consider reformatting the file to make it easier to navigate. For example, if this is JSON, use execute(command='jq . {file_path}') to pretty-print it with line breaks. For other formats, you can use appropriate formatting tools to split long lines.]".

Definition TOO_LARGE_TOOL_MSG : str :=
  lit "Tool result too large, the result of this tool call {tool_call_id} was saved in the filesystem at this path: {file_path}" ++ [nl] ++
  lit "You can read the result from the filesystem by using the read_file tool, but make sure to only read part of the result at a time." ++ [nl] ++
  lit "You can do this by specifying an offset and limit in the read_file tool call." ++ [nl] ++
  lit "For example, to read the first 100 lines, you can use the read_file tool with offset=0 and limit=100." ++ [nl] ++
  [nl] ++
  lit "Here is a preview showing the head and tail of the result (lines of the form" ++ [nl] ++
  lit "... [N lines truncated] ..." ++ [nl] ++
  lit "indicate omitted lines in the middle of the content):" ++ [nl] ++
  [nl] ++
  lit "{content_sample}".

(** Number truthiness: [null], [undefined] and [0] are falsy. *)
Definition truthy_limit (limit : option Z) : option Z :=
  match limit with
  | Some n => if n =? 0 then None else Some n
  | None => None
  end.

Section WithPlatform.
Context `{Platform}.

(** Modelled from the spec: [formatContentWithLineNumbers] of
    [backends/utils.ts] is not among the sources. The specification
    describes it as 1-indexed numbered-line output formatting: each line
    is put on one output line behind its line number, counting from
    [startLine]. The rendering of the number is [lineNumberPrefix]. *)
Definition formatContentWithLineNumbers (lines : list str) (startLine : Z)
  : str :=
  join [nl]
    (imap (fun i line => lineNumberPrefix (startLine + Z.of_nat i) ++ line)
       lines).

Definition createContentPreview (contentStr : str) (headLines tailLines : Z)
  : str :=
  let lines := split nl contentStr in
  let len := Z.of_nat (length lines) in
  if len <=? headLines + tailLines then
    let previewLines := map (substring0 1000) lines in
    formatContentWithLineNumbers previewLines 1
  else
    let head := map (substring0 1000) (slice 0 (Some headLines) lines) in
    let tail := map (substring0 1000) (slice (- tailLines) None lines) in
    let headSample := formatContentWithLineNumbers head 1 in
    let truncationNotice :=
      [nl] ++ lit "... [" ++ Number_toString (len - headLines - tailLines)
           ++ lit " lines truncated] ..." ++ [nl] in
    let tailSample :=
      formatContentWithLineNumbers tail (len - tailLines + 1) in
    headSample ++ truncationNotice ++ tailSample.

(** [createContentPreview(contentStr)] with the default
    [headLines = 5], [tailLines = 5]. *)
Definition createContentPreview_default (contentStr : str) : str :=
  createContentPreview contentStr 5 5.

(** The files reducer. [Object.entries(update)] is the list of the
    entries of [update]; its keys are pairwise distinct. *)
Definition fileDataReducer
    (current : option FilesRecord) (update : option FilesRecordUpdate)
  : FilesRecord :=
  match update with
  | None => default ∅ current
  | Some update =>
      match current with
      | None =>
          foldl (fun (result : FilesRecord) '(key, value) =>
                   match value with
                   | Some v => <[key := v]> result
                   | None => result
                   end)
            ∅ (map_to_list update)
      | Some current =>
          foldl (fun (result : FilesRecord) '(key, value) =>
                   match value with
                   | None => delete key result
                   | Some v => <[key := v]> result
                   end)
            current (map_to_list update)
      end
  end.

Definition getBackend (backend : BackendOrFactory World Store)
    (stateAndStore : StateAndStore Store) : BackendProtocol World :=
  match backend with
  | BackendFactory f => f stateAndStore
  | BackendInstance b => b
  end.

(** *** The read_file tool *)

Record ReadFileInput := mkReadInput {
  file_path : str;
  offset : option Z;
  limit : option Z
}.

(** The [config] a tool is called with: [getCurrentTaskInput(config)]
    and [config.store]. *)
Record ToolConfig := mkToolConfig {
  currentTaskInput : AgentState;
  config_store : option Store
}.

Definition readFileTool (backend : BackendOrFactory World Store)
    (toolTokenLimitBeforeEvict : option Z)
    (input : ReadFileInput) (config : ToolConfig) : M World str :=
  let stateAndStore :=
    mkStateAndStore (currentTaskInput config) (config_store config) in
  let resolvedBackend := getBackend backend stateAndStore in
  let file_path := file_path input in
  let offset := default DEFAULT_READ_LINE_OFFSET (offset input) in
  let limit := default DEFAULT_READ_LINE_LIMIT (limit input) in
  let* result :=
    await (read resolvedBackend file_path (Some offset) (Some limit)) in
  (* Enforce line limit on result (in case backend returns more) *)
  let lines := split nl result in
  let result :=
    if Z.of_nat (length lines) >? limit
    then join [nl] (slice 0 (Some limit) lines)
    else result in
  (* Check if result exceeds token threshold and truncate if necessary *)
  let result :=
    match truthy_limit toolTokenLimitBeforeEvict with
    | Some tokenLimit =>
        if strlen result >=? NUM_CHARS_PER_TOKEN * tokenLimit then
          let truncationMsg :=
            replace (lit "{file_path}") file_path READ_FILE_TRUNCATION_MSG in
          let maxContentLength :=
            NUM_CHARS_PER_TOKEN * tokenLimit - strlen truncationMsg in
          substring0 maxContentLength result ++ truncationMsg
        else result
    | None => result
    end in
  ret result.

(** The two steps of [readFileTool] after the backend's answer, named
    so that statements can refer to them. *)

(** Enforce line limit on result. *)
Definition lineLimited (limit : Z) (result : str) : str :=
  let lines := split nl result in
  if Z.of_nat (length lines) >? limit
  then join [nl] (slice 0 (Some limit) lines)
  else result.

(** Truncate if the result reaches the token threshold. *)
Definition charCapped (toolTokenLimitBeforeEvict : option Z)
    (file_path result : str) : str :=
  match truthy_limit toolTokenLimitBeforeEvict with
  | Some tokenLimit =>
      if strlen result >=? NUM_CHARS_PER_TOKEN * tokenLimit then
        let truncationMsg :=
          replace (lit "{file_path}") file_path READ_FILE_TRUNCATION_MSG in
        let maxContentLength :=
          NUM_CHARS_PER_TOKEN * tokenLimit - strlen truncationMsg in
        substring0 maxContentLength result ++ truncationMsg
      else result
  | None => result
  end.

(** *** The eviction wrapper *)

(** [msg.content] is a string or an array of content blocks. *)
Inductive MessageContent :=
| ContentText (text : str)
| ContentBlocks (blocks : list str).

Record ToolMessage := mkToolMessage {
  msg_content : MessageContent;
  tool_call_id : str;
  msg_name : option str
}.

Inductive BaseMessage :=
| IsToolMessage (msg : ToolMessage)
| OtherMessage (text : str).

(** The [update] of a [Command]: the [files] and [messages] channels and
    the remaining keys. *)
Record CommandUpdate := mkUpdate {
  upd_files : option FilesRecordUpdate;
  upd_messages : option (list BaseMessage);
  upd_others : gmap str str
}.

Record Command := mkCommand {
  update : option CommandUpdate;
  goto : option str
}.

(** [new Command({ update })] *)
Definition new_Command (u : CommandUpdate) : Command :=
  mkCommand (Some u) None.

(** What a tool handler resolves to. *)
Inductive ToolResult :=
| ResultMessage (msg : ToolMessage)
| ResultCommand (cmd : Command).

Record ToolCall := mkToolCall {
  tc_name : option str;
  tc_id : option str
}.

Record ToolCallRequest := mkRequest {
  toolCall : option ToolCall;
  req_state : option AgentState;
  req_store : option Store
}.

Definition ToolHandler := ToolCallRequest -> M World ToolResult.

Record Processed := mkProcessed {
  message : ToolMessage;
  processed_filesUpdate : option FilesRecordUpdate
}.

Definition processToolMessage (backend : BackendOrFactory World Store)
    (request : ToolCallRequest)
    (msg : ToolMessage) (toolTokenLimitBeforeEvict : Z)
  : M World Processed :=
  match msg_content msg with
  | ContentText content =>
      if strlen content >? toolTokenLimitBeforeEvict * NUM_CHARS_PER_TOKEN
      then
        let stateAndStore :=
          mkStateAndStore (default empty_state (req_state request))
            (req_store request) in
        let resolvedBackend := getBackend backend stateAndStore in
        let sanitizedId :=
          sanitizeToolCallId
            (or_else (toolCall request ≫= tc_id) (tool_call_id msg)) in
        let evictPath := lit "/large_tool_results/" ++ sanitizedId in
        let* writeResult :=
          await (write resolvedBackend evictPath content) in
        if truthy_opt (error writeResult) then
          ret (mkProcessed msg None)
        else
          (* Create preview showing head and tail of the result *)
          let contentSample := createContentPreview_default content in
          let replacementText :=
            replace (lit "{content_sample}") contentSample
              (replace (lit "{file_path}") evictPath
                 (replace (lit "{tool_call_id}") (tool_call_id msg)
                    TOO_LARGE_TOOL_MSG)) in
          let truncatedMessage :=
            mkToolMessage (ContentText replacementText)
              (tool_call_id msg) (msg_name msg) in
          ret (mkProcessed truncatedMessage (filesUpdate writeResult))
      else ret (mkProcessed msg None)
  | ContentBlocks _ => ret (mkProcessed msg None)
  end.

(** The loop over [update.messages] of a [Command]: the state of the
    loop is [hasLargeResults], [accumulatedFiles] and
    [processedMessages]. *)
Fixpoint processMessages (backend : BackendOrFactory World Store)
    (request : ToolCallRequest) (toolTokenLimitBeforeEvict : Z)
    (messages : list BaseMessage)
    (hasLargeResults : bool) (accumulatedFiles : FilesRecordUpdate)
    (processedMessages : list BaseMessage)
  : M World (bool * FilesRecordUpdate * list BaseMessage) :=
  match messages with
  | [] => ret (hasLargeResults, accumulatedFiles, processedMessages)
  | IsToolMessage msg :: rest =>
      let* processed :=
        processToolMessage backend request msg toolTokenLimitBeforeEvict in
      let processedMessages :=
        processedMessages ++ [IsToolMessage (message processed)] in
      match processed_filesUpdate processed with
      | Some filesUpdate =>
          (* Object.assign(accumulatedFiles, processed.filesUpdate) *)
          processMessages backend request toolTokenLimitBeforeEvict rest
            true (filesUpdate ∪ accumulatedFiles) processedMessages
      | None =>
          processMessages backend request toolTokenLimitBeforeEvict rest
            hasLargeResults accumulatedFiles processedMessages
      end
  | OtherMessage text :: rest =>
      processMessages backend request toolTokenLimitBeforeEvict rest
        hasLargeResults accumulatedFiles
        (processedMessages ++ [OtherMessage text])
  end.

Definition wrapToolCall (backend : BackendOrFactory World Store)
    (toolTokenLimitBeforeEvict : option Z)
    (request : ToolCallRequest) (handler : ToolHandler)
  : M World ToolResult :=
  (* Return early if eviction is disabled *)
  match truthy_limit toolTokenLimitBeforeEvict with
  | None => handler request
  | Some toolTokenLimitBeforeEvict =>
      (* Check if this tool is excluded from eviction *)
      let toolName := toolCall request ≫= tc_name in
      if match toolName with
         | Some toolName =>
             truthy toolName
             && bool_decide (toolName ∈ TOOLS_EXCLUDED_FROM_EVICTION)
         | None => false
         end
      then handler request
      else
        let* result := handler request in
        match result with
        | ResultMessage msg =>
            let* processed :=
              processToolMessage backend request msg
                toolTokenLimitBeforeEvict in
            match processed_filesUpdate processed with
            | Some filesUpdate =>
                ret (ResultCommand
                       (new_Command
                          (mkUpdate (Some filesUpdate)
                             (Some [IsToolMessage (message processed)])
                             ∅)))
            | None => ret (ResultMessage (message processed))
            end
        | ResultCommand cmd =>
            match update cmd with
            | None => ret result
            | Some update =>
                match upd_messages update with
                | None => ret result
                | Some messages =>
                    let* '(hasLargeResults, accumulatedFiles,
                           processedMessages) :=
                      processMessages backend request
                        toolTokenLimitBeforeEvict messages
                        false (default ∅ (upd_files update)) [] in
                    if hasLargeResults : bool then
                      ret (ResultCommand
                             (new_Command
                                (mkUpdate (Some accumulatedFiles)
                                   (Some processedMessages)
                                   (upd_others update))))
                    else ret result
                end
            end
        end
  end.

(** The values [wrapToolCall] and [processToolMessage] compute on the
    way, named so that statements can refer to them. *)

(** [toolName && TOOLS_EXCLUDED_FROM_EVICTION.includes(toolName)] *)
Definition excluded_from_eviction (request : ToolCallRequest) : bool :=
  match toolCall request ≫= tc_name with
  | Some toolName =>
      truthy toolName
      && bool_decide (toolName ∈ TOOLS_EXCLUDED_FROM_EVICTION)
  | None => false
  end.

(** [resolvedBackend] *)
Definition evictionBackend (backend : BackendOrFactory World Store)
    (request : ToolCallRequest) : BackendProtocol World :=
  getBackend backend
    (mkStateAndStore (default empty_state (req_state request))
       (req_store request)).

(** [evictPath] *)
Definition evictPathOf (request : ToolCallRequest) (msg : ToolMessage)
  : str :=
  lit "/large_tool_results/"
    ++ sanitizeToolCallId
         (or_else (toolCall request ≫= tc_id) (tool_call_id msg)).

(** [replacementText] *)
Definition replacementTextOf (request : ToolCallRequest)
    (msg : ToolMessage) (content : str) : str :=
  replace (lit "{content_sample}") (createContentPreview_default content)
    (replace (lit "{file_path}") (evictPathOf request msg)
       (replace (lit "{tool_call_id}") (tool_call_id msg)
          TOO_LARGE_TOOL_MSG)).

(** [truncatedMessage] *)
Definition truncatedMessageOf (request : ToolCallRequest)
    (msg : ToolMessage) (content : str) : ToolMessage :=
  mkToolMessage (ContentText (replacementTextOf request msg content))
    (tool_call_id msg) (msg_name msg).

(** *** [createFilesystemMiddleware] *)

Record FilesystemMiddlewareOptions := mkOptions {
  opt_backend : option (BackendOrFactory World Store);
  opt_toolTokenLimitBeforeEvict : Nullable Z
}.

(** The hooks of the middleware this development covers. *)
Record FilesystemMiddleware := mkMiddleware {
  mw_read_file : ReadFileInput -> ToolConfig -> M World str;
  mw_wrapToolCall : ToolCallRequest -> ToolHandler -> M World ToolResult
}.

Definition createFilesystemMiddleware
    (options : FilesystemMiddlewareOptions) : FilesystemMiddleware :=
  let backend := default (BackendFactory StateBackend) (opt_backend options) in
  let toolTokenLimitBeforeEvict :=
    match opt_toolTokenLimitBeforeEvict options with
    | Undefined => Some 20000
    | Null => None
    | Value n => Some n
    end in
  mkMiddleware
    (readFileTool backend toolTokenLimitBeforeEvict)
    (wrapToolCall backend toolTokenLimitBeforeEvict).

End WithPlatform.
End Fs.

(** ** [middleware/memory.ts] *)
Module Memory.
Import JS Eff Types.
Local Open Scope Z_scope.
Local Open Scope js_scope.

Section WithPlatform.
Context `{Platform}.

Definition loadMemoryFromBackend (backend : BackendProtocol World)
    (path : str) : M World (option str) :=
  (* Use downloadFiles if available, otherwise fall back to read *)
  match downloadFiles backend with
  | None =>
      let* content := await (read backend path None None) in
      if startsWith (lit "Error:") content then ret None
      else ret (Some content)
  | Some downloadFiles =>
      let* results := await (downloadFiles [path]) in
      match results with
      | [response] =>
          match dl_error response with
          | Some err =>
              if decide (err = lit "file_not_found") then ret None
              else
                throw (mkError (lit "Failed to download " ++ path
                                  ++ lit ": " ++ err))
          | None =>
              match dl_content response with
              | Some bytes => ret (Some (TextDecoder_decode bytes))
              | None => ret None
              end
          end
      | _ =>
          throw (mkError
                   (lit "Expected 1 response for path " ++ path
                      ++ lit ", got "
                      ++ Number_toString (Z.of_nat (length results))))
      end
  end.

(** Resolve backend from instance or factory: [backend({ state })]. *)
Definition getBackend (backend : BackendOrFactory World Store)
    (state : AgentState) : BackendProtocol World :=
  match backend with
  | BackendFactory f => f (mkStateAndStore state None)
  | BackendInstance b => b
  end.

(** The loop of [beforeAgent] over [sources]; [contents] is the object
    being filled. *)
Fixpoint loadSources (resolvedBackend : BackendProtocol World)
    (sources : list str) (contents : gmap str str)
  : M World (gmap str str) :=
  match sources with
  | [] => ret contents
  | path :: rest =>
      let* contents :=
        try_catch
          (let* content := loadMemoryFromBackend resolvedBackend path in
           match content with
           | Some text =>
               if truthy text then ret (<[path := text]> contents)
               else ret contents
           | None => ret contents
           end)
          (fun error =>
             (* Log but continue - memory is optional *)
             let* _ :=
               console_debug
                 (lit "Failed to load memory from " ++ path ++ lit ":")
                 (Some error) in
             ret contents) in
      loadSources resolvedBackend rest contents
  end.

(** [beforeAgent(state)]: [None] is [undefined], [Some contents] is
    [{ memoryContents: contents }]. *)
Definition beforeAgent (backend : BackendOrFactory World Store)
    (sources : list str) (state : AgentState)
  : M World (option (gmap str str)) :=
  (* Skip if already loaded *)
  match memoryContents state with
  | Some _ => ret None
  | None =>
      let resolvedBackend := getBackend backend state in
      let* contents := loadSources resolvedBackend sources ∅ in
      ret (Some contents)
  end.

End WithPlatform.
End Memory.

(** ** The skills middleware *)
Module Skills.
Import JS Eff Types.
Local Open Scope Z_scope.
Local Open Scope js_scope.

(** A JavaScript [Map] with string keys: the entries in insertion order.
    [set] on a present key replaces the value where the key stands. *)
Fixpoint Map_set {V} (key : str) (value : V) (m : list (str * V))
  : list (str * V) :=
  match m with
  | [] => [(key, value)]
  | (k, v) :: rest =>
      if decide (k = key) then (key, value) :: rest
      else (k, v) :: Map_set key value rest
  end.

(** [Array.from(m.values())] *)
Definition Map_values {V} (m : list (str * V)) : list V := m.*2.

(** [m.get(key)] *)
Definition Map_get {V} (key : str) (m : list (str * V)) : option V :=
  snd <$> find (fun entry => bool_decide (entry.1 = key)) m.

(** The last skill of a list that bears a given name. *)
Definition latest_named (n : str) (skills : list SkillMetadata)
  : option SkillMetadata :=
  last (filter (fun skill => name skill = n) skills).

(** Every entry of the registry sits under the name of its skill. *)
Definition keyed_by_name (m : list (str * SkillMetadata)) : Prop :=
  Forall (fun entry => entry.1 = name entry.2) m.

(** [for (const skill of skills) merged.set(skill.name, skill)] *)
Definition set_all (skills : list SkillMetadata)
    (merged : list (str * SkillMetadata)) : list (str * SkillMetadata) :=
  foldl (fun m skill => Map_set (name skill) skill m) merged skills.

Definition skillsMetadataReducer
    (current update : option (list SkillMetadata)) : list SkillMetadata :=
  match update with
  | None | Some [] =>
      (* If no update, return current (or empty array) *)
      default [] current
  | Some update =>
      match current with
      | None | Some [] =>
          (* If no current, return update *)
          update
      | Some current =>
          (* Merge by skill name (later values override earlier ones) *)
          Map_values (set_all update (set_all current []))
      end
  end.

Definition is_path_sep (c : ascii) : bool :=
  bool_decide (c = "/"%char) || bool_decide (c = "\"%char).

(** [s.endsWith("/") || s.endsWith("\\")] *)
Definition ends_with_sep (s : str) : bool :=
  match last s with
  | Some c => is_path_sep c
  | None => false
  end.

(** Removal of one trailing slash or backslash, the [replace] with the
    pattern [/[/\\]$/] and an empty replacement. *)
Definition strip_trailing_sep (p : str) : str :=
  if ends_with_sep p then take (length p - 1) p else p.

(** The name of a directory entry: the last component of [info.path]
    once a trailing separator is removed, or the empty string. *)
Definition entry_name (p : str) : str :=
  default [] (last (split_by is_path_sep (strip_trailing_sep p))).

Section WithPlatform.
Context `{Platform}.

(** The loop of [listSkillsFromBackend] over the directory entries. *)
Fixpoint scanEntries (backend : BackendProtocol World)
    (normalizedPath : str) (fileInfos : list FileInfo)
    (skills : list SkillMetadata) : M World (list SkillMetadata) :=
  match fileInfos with
  | [] => ret skills
  | info :: rest =>
      let entry_name := entry_name (fi_path info) in
      if negb (default false (is_dir info)) then
        scanEntries backend normalizedPath rest skills
      else
        let skillMdPath :=
          normalizedPath ++ entry_name ++ lit "/SKILL.md" in
        (* Try to download the SKILL.md file *)
        let* content :=
          match downloadFiles backend with
          | Some downloadFiles =>
              let* results := await (downloadFiles [skillMdPath]) in
              match results with
              | [response] =>
                  match dl_error response, dl_content response with
                  | None, Some bytes =>
                      ret (Some (TextDecoder_decode bytes))
                  | _, _ => ret None
                  end
              | _ => ret None
              end
          | None =>
              (* Fall back to read if downloadFiles is not available *)
              let* readResult :=
                await (read backend skillMdPath None None) in
              if startsWith (lit "Error:") readResult then ret None
              else ret (Some readResult)
          end in
        match content with
        | None => scanEntries backend normalizedPath rest skills
        | Some content =>
            match parseSkillMetadataFromContent content skillMdPath
                    entry_name with
            | Some metadata =>
                scanEntries backend normalizedPath rest
                  (skills ++ [metadata])
            | None => scanEntries backend normalizedPath rest skills
            end
        end
  end.

Definition listSkillsFromBackend (backend : BackendProtocol World)
    (sourcePath : str) : M World (list SkillMetadata) :=
  let normalizedPath :=
    if ends_with_sep sourcePath then sourcePath
    else sourcePath ++ lit "/" in
  let* fileInfos :=
    try_catch
      (let* infos := await (lsInfo backend normalizedPath) in
       ret (Some infos))
      (fun _ => ret None) in
  match fileInfos with
  | None =>
      (* Source path doesn't exist or can't be listed *)
      ret []
  | Some fileInfos => scanEntries backend normalizedPath fileInfos []
  end.

Definition getBackend (backend : BackendOrFactory World Store)
    (state : AgentState) : BackendProtocol World :=
  match backend with
  | BackendFactory f => f (mkStateAndStore state None)
  | BackendInstance b => b
  end.

(** The loop of [beforeAgent] over [sources]; [allSkills] is the [Map]
    from skill name to metadata. *)
Fixpoint loadSources (resolvedBackend : BackendProtocol World)
    (sources : list str) (allSkills : list (str * SkillMetadata))
  : M World (list (str * SkillMetadata)) :=
  match sources with
  | [] => ret allSkills
  | sourcePath :: rest =>
      let* allSkills :=
        try_catch
          (let* skills :=
             listSkillsFromBackend resolvedBackend sourcePath in
           ret (set_all skills allSkills))
          (fun error =>
             let* _ :=
               console_debug
                 (lit "[BackendSkillsMiddleware] Failed to load skills from "
                    ++ sourcePath ++ lit ":")
                 (Some error) in
             ret allSkills) in
      loadSources resolvedBackend rest allSkills
  end.

(** What each source contributes during [loadSources], in the order of
    the sources, and the state the loop ends in: the skills listed for a
    source, or none when its listing rejected. *)
Fixpoint listings (resolvedBackend : BackendProtocol World)
    (sources : list str) (s : Sys World)
  : list (list SkillMetadata) * Sys World :=
  match sources with
  | [] => ([], s)
  | sourcePath :: rest =>
      match listSkillsFromBackend resolvedBackend sourcePath s with
      | (Ok skills, s1) =>
          let '(ls, s') := listings resolvedBackend rest s1 in
          (skills :: ls, s')
      | (Thrown error, s1) =>
          let '(ls, s') :=
            listings resolvedBackend rest
              (mkSys (world s1)
                 (console s1
                    ++ [mkLog LogDebug
                          (lit "[BackendSkillsMiddleware] Failed to load skills from "
                             ++ sourcePath ++ lit ":")
                          (Some error)])) in
          ([] :: ls, s')
      end
  end.

(** [beforeAgent(state)]. The closure variable [loadedSkills] is passed
    in and its new value returned next to the hook's result, which is
    [None] for [undefined] and [Some l] for [{ skillsMetadata: l }]. *)
Definition beforeAgent (backend : BackendOrFactory World Store)
    (sources : list str) (loadedSkills : list SkillMetadata)
    (state : AgentState)
  : M World (list SkillMetadata * option (list SkillMetadata)) :=
  (* Skip if already loaded (check both closure and state) *)
  match loadedSkills with
  | _ :: _ => ret (loadedSkills, None)
  | [] =>
      match skillsMetadata state with
      | Some (s :: l) =>
          (* Restore from state (e.g., after checkpoint restore) *)
          ret (s :: l, None)
      | _ =>
          let resolvedBackend := getBackend backend state in
          let* allSkills := loadSources resolvedBackend sources [] in
          let loadedSkills := Map_values allSkills in
          ret (loadedSkills, Some loadedSkills)
      end
  end.

End WithPlatform.
End Skills.

(** ** A concrete platform and concrete backends

    Storage is the list of the files written. For the helpers of
    [backends/utils.ts] one plausible choice is taken: a tool-call id is
    sanitised by replacing dots and slashes with underscores, a line number
    is padded to six columns and followed by a tab. *)
Module Sample.
Import JS Eff Types.
Local Open Scope Z_scope.

Definition tab : ascii := "009"%char.

Definition padStart (width : nat) (s : str) : str :=
  List.repeat " "%char (width - length s) ++ s.

Definition line_prefix (n : Z) : str :=
  padStart 6 (Number_toString n) ++ [tab].

Definition sanitize (id : str) : str :=
  map (fun c =>
         if bool_decide (c ∈ ["."%char; "/"%char; "\"%char])
         then "_"%char else c) id.

Definition decode (bytes : list Byte.byte) : str := map ascii_of_byte bytes.
Definition encode (s : str) : list Byte.byte := map byte_of_ascii s.

(** A stand-in for the frontmatter parser: the first line of the file is
    the skill's name, the second its description. *)
Definition parse (content skillPath directoryName : str)
  : option SkillMetadata :=
  match split nl content with
  | name :: description :: _ =>
      if truthy name && truthy description
      then Some (mkSkill name description skillPath None None None None)
      else None
  | _ => None
  end.

(** Children of directory [dir] among the stored paths: the first path
    component below [dir], once each. *)
Definition child_of (dir p : str) : option str :=
  match strip_prefix dir p with
  | Some rest =>
      match split "/"%char rest with
      | child :: _ :: _ => Some (dir ++ child)
      | _ => None
      end
  | None => None
  end.

(** Storage: the files written, the latest first. *)
Definition Disk : Type := list (str * str).

Definition file_at (w : Disk) (p : str) : option str :=
  snd <$> find (fun entry => bool_decide (entry.1 = p)) w.

(** A backend that keeps texts on a disk: [write] refuses to overwrite,
    and reports nothing for the files state. *)
Definition disk : BackendProtocol Disk :=
  mkBackend
    (fun dir w =>
       (Ok (map (fun d => mkFileInfo d (Some true))
              (remove_dups (omap (child_of dir) (map fst w)))),
        w))
    (fun p _ _ w =>
       (Ok (default (lit "Error: File '" ++ p ++ lit "' not found")
              (file_at w p)),
        w))
    (fun p text w =>
       match file_at w p with
       | Some _ =>
           (Ok (mkWriteResult
                  (Some (lit "Cannot write to " ++ p
                           ++ lit " because it already exists."))
                  None),
            w)
       | None => (Ok (mkWriteResult None None), (p, text) :: w)
       end)
    (Some (fun paths w =>
             (Ok (map (fun p =>
                         match file_at w p with
                         | Some text => mkDownload None (Some (encode text))
                         | None =>
                             mkDownload (Some (lit "file_not_found")) None
                         end) paths),
              w))).

(** A backend that keeps texts in the agent state: [write] leaves the
    storage alone and reports the new file for the files state. *)
Definition in_state : BackendProtocol Disk :=
  mkBackend
    (fun _ w => (Ok [], w))
    (fun p _ _ w =>
       (Ok (default (lit "Error: File '" ++ p ++ lit "' not found")
              (file_at w p)),
        w))
    (fun p text w =>
       (Ok (mkWriteResult None
              (Some {[ p := Some (mkFileData (split nl text) [] []) ]})),
        w))
    None.

(** A backend whose downloads are refused for every path. *)
Definition locked : BackendProtocol Disk :=
  mkBackend
    (fun _ w => (Ok [], w))
    (fun p _ _ w => (Ok (lit "Error: permission denied"), w))
    (fun p text w =>
       (Ok (mkWriteResult (Some (lit "permission denied")) None), w))
    (Some (fun paths w =>
             (Ok (map (fun _ => mkDownload (Some (lit "permission_denied")) None)
                    paths),
              w))).

Definition platform : Platform :=
  {| World := Disk;
     Store := unit;
     StateBackend := fun _ => in_state;
     sanitizeToolCallId := sanitize;
     lineNumberPrefix := line_prefix;
     TextDecoder_decode := decode;
     parseSkillMetadataFromContent := parse |}.

Definition on_disk : BackendOrFactory (@World platform) (@Store platform) :=
  BackendInstance disk.
Definition on_state : BackendOrFactory (@World platform) (@Store platform) :=
  BackendInstance in_state.
Definition on_locked : BackendOrFactory (@World platform) (@Store platform) :=
  BackendInstance locked.


(** [n] lines [x], joined by newlines. *)
Definition lines_of (n : nat) (x : str) : str :=
  join [nl] (List.repeat x n).

(** A text of [n] characters on one line. *)
Definition long_line (n : Z) : str := List.repeat "a"%char (Z.to_nat n).

Definition start : Sys Disk := mkSys [] [].

(** A request for tool [toolName] with tool-call id [id]. *)
Definition request (toolName id : string)
  : Fs.ToolCallRequest (H := platform) :=
  Fs.mkRequest
    (Some (Fs.mkToolCall (Some (lit toolName)) (Some (lit id)))) None None.

Definition text_message (text : str) (id : string) : Fs.ToolMessage :=
  Fs.mkToolMessage (Fs.ContentText text) (lit id) (Some (lit "search")).

(** A handler that resolves to [r] without touching anything. *)
Definition answering (r : Fs.ToolResult) : Fs.ToolHandler (H := platform) :=
  fun _ => ret r.

(** A disk with one file [/f.txt]. *)
Definition with_file (text : str) : Sys Disk :=
  mkSys [(lit "/f.txt", text)] [].

Definition reading (limit : Z) : Fs.ReadFileInput :=
  Fs.mkReadInput (lit "/f.txt") None (Some limit).

Definition tool_config : Fs.ToolConfig (H := platform) :=
  Fs.mkToolConfig empty_state None.



Definition base_skill : SkillMetadata :=
  mkSkill (lit "code-review") (lit "Base review rules")
    (lit "/skills/base/code-review/SKILL.md") None None None None.

Definition user_skill : SkillMetadata :=
  mkSkill (lit "code-review") (lit "My own review rules")
    (lit "/skills/user/code-review/SKILL.md") None None None None.

(** A disk on which the eviction path of call [call_1] is taken. *)
Definition occupied : Sys Disk :=
  mkSys [(lit "/large_tool_results/call_1", lit "old")] [].

End Sample.

(** ** [middleware/fs.ts]: the ls and grep tools *)
Module FsTools.
Import JS Eff Types Fs.
Local Open Scope Z_scope.
Local Open Scope js_scope.

(** A [FileInfo] with the fields the ls tool reads: [size] is optional. *)
Record FileEntry := mkEntry {
  entry_path : str;
  entry_is_dir : option bool;
  entry_size : option Z
}.

Record GrepMatch := mkMatch {
  match_path : str;
  match_line : Z;
  match_text : str
}.

(** What [grepRaw] resolves to: an error text or the matches. *)
Inductive GrepResult :=
| GrepError (text : str)
| GrepMatches (matches : list GrepMatch).

(** The operations of the backend the two tools call. *)
Record ToolBackend (World : Type) := mkToolBackend {
  tb_lsInfo : str -> BackendOp World (list FileEntry);
  tb_grepRaw : str -> str -> option str -> BackendOp World GrepResult
}.
Arguments mkToolBackend {World} _ _.
Arguments tb_lsInfo {World} _ _ _.
Arguments tb_grepRaw {World} _ _ _ _ _.

Inductive ToolBackendOrFactory (World Store : Type) : Type :=
| ToolBackendInstance (b : ToolBackend World)
| ToolBackendFactory (f : StateAndStore Store -> ToolBackend World).
Arguments ToolBackendInstance {World Store} b.
Arguments ToolBackendFactory {World Store} f.

(** The line of the ls tool for one entry. *)
Definition lsLine (info : FileEntry) : str :=
  if default false (entry_is_dir info) then
    entry_path info ++ lit " (directory)"
  else
    let size :=
      match entry_size info with
      | Some n =>
          if n =? 0 then []
          else lit " (" ++ Number_toString n ++ lit " bytes)"
      | None => []
      end in
    entry_path info ++ size.

(** The two kinds of lines the grep tool pushes: the header of a file,
    which starts with a newline, and the line of a match. *)
Definition headerLine (currentFile : str) : str :=
  [nl] ++ currentFile ++ lit ":".

Definition matchLine (m : GrepMatch) : str :=
  lit "  " ++ Number_toString (match_line m) ++ lit ": " ++ match_text m.

(** The loop of the grep tool: [currentFile] is the file of the header
    pushed last, [lines] the lines pushed so far. *)
Fixpoint grepLines (matches : list GrepMatch) (currentFile : option str)
    (lines : list str) : list str :=
  match matches with
  | [] => lines
  | m :: rest =>
      let '(currentFile, lines) :=
        if decide (Some (match_path m) = currentFile) then (currentFile, lines)
        else (Some (match_path m), lines ++ [headerLine (match_path m)]) in
      grepLines rest currentFile (lines ++ [matchLine m])
  end.

(** The matches of one file, as the backend lists them: the path with
    each line number and text. *)
Definition matchesOf (group : str * list (Z * str)) : list GrepMatch :=
  (fun hit => mkMatch group.1 hit.1 hit.2) <$> group.2.

Section WithPlatform.
Context `{Platform}.

Definition getToolBackend (backend : ToolBackendOrFactory World Store)
    (stateAndStore : StateAndStore Store) : ToolBackend World :=
  match backend with
  | ToolBackendFactory f => f stateAndStore
  | ToolBackendInstance b => b
  end.

(** The ls tool; [input_path] is [input.path]. *)
Definition lsTool (backend : ToolBackendOrFactory World Store)
    (input_path : option str) (config : ToolConfig) : M World str :=
  let stateAndStore :=
    mkStateAndStore (currentTaskInput config) (config_store config) in
  let resolvedBackend := getToolBackend backend stateAndStore in
  let path := or_else input_path (lit "/") in
  let* infos := await (tb_lsInfo resolvedBackend path) in
  match infos with
  | [] => ret (lit "No files found in " ++ path)
  | _ :: _ => ret (join [nl] (map lsLine infos))
  end.

(** The grep tool; an omitted [path] is [/], an omitted [glob] is
    [null]. *)
Definition grepTool (backend : ToolBackendOrFactory World Store)
    (pattern : str) (input_path : option str) (glob : option str)
    (config : ToolConfig) : M World str :=
  let stateAndStore :=
    mkStateAndStore (currentTaskInput config) (config_store config) in
  let resolvedBackend := getToolBackend backend stateAndStore in
  let path := default (lit "/") input_path in
  let* result := await (tb_grepRaw resolvedBackend pattern path glob) in
  match result with
  | GrepError text => ret text
  | GrepMatches [] =>
      ret (lit "No matches found for pattern '" ++ pattern ++ lit "'")
  | GrepMatches matches => ret (join [nl] (grepLines matches None []))
  end.

End WithPlatform.
End FsTools.

(** Concrete listings for the two tools. *)
Module ToolCases.
Import JS Eff Types FsTools.
Local Open Scope Z_scope.

Definition entries : list FileEntry :=
  [mkEntry (lit "/src") (Some true) None;
   mkEntry (lit "/a.txt") (Some false) (Some 12);
   mkEntry (lit "/empty") None (Some 0)].

Definition hits : list (str * list (Z * str)) :=
  [(lit "/a.txt", [(3, lit "foo"); (7, lit "foo bar")]);
   (lit "/b.txt", [(1, lit "foo")])].

(** A backend that answers every listing and every search alike. *)
Definition shelf : ToolBackend Sample.Disk :=
  mkToolBackend
    (fun _ w => (Ok entries, w))
    (fun _ _ _ w => (Ok (GrepMatches (hits ≫= matchesOf)), w)).

Definition on_shelf
  : ToolBackendOrFactory (@World Sample.platform) (@Store Sample.platform) :=
  ToolBackendInstance shelf.

End ToolCases.

(** ** [middleware/memory.ts]: the memory section of the system prompt *)
Module MemoryPrompt.
Import JS Eff Types.
Local Open Scope js_scope.

Definition dq : ascii := "034"%char.

Definition MEMORY_SYSTEM_PROMPT : str :=
  lit "<agent_memory>" ++ [nl] ++
  lit "{memory_contents}" ++ [nl] ++
  lit "</agent_memory>" ++ [nl] ++
  [nl] ++
  lit "<memory_guidelines>" ++ [nl] ++
  lit "    The above <agent_memory> was loaded in from files in your filesystem. As you learn from your interactions with the user, you can save new knowledge by calling the `edit_file` tool." ++ [nl] ++
  [nl] ++
  lit "    **Learning from feedback:**" ++ [nl] ++
  lit "    - One of your MAIN PRIORITIES is to learn from your interactions with the user. These learnings can be implicit or explicit. This means that in the future, you will remember this important information." ++ [nl] ++
  lit "    - When you need to remember something, updating memory must be your FIRST, IMMEDIATE action - before responding to the user, before calling other tools, before doing anything else. Just update memory immediately." ++ [nl] ++
  lit "    - When user says something is better/worse, capture WHY and encode it as a pattern." ++ [nl] ++
  lit "    - Each correction is a chance to improve permanently - don't just fix the immediate issue, update your instructions." ++ [nl] ++
  lit "    - A great opportunity to update your memories is when the user interrupts a tool call and provides feedback. You should update your memories immediately before revising the tool call." ++ [nl] ++
  lit "    - Look for the underlying principle behind corrections, not just the specific mistake." ++ [nl] ++
  lit "    - The user might not explicitly ask you to remember something, but if they provide information that is useful for future use, you should update your memories immediately." ++ [nl] ++
  [nl] ++
  lit "    **Asking for information:**" ++ [nl] ++
  lit "    - If you lack context to perform an action (e.g. send a Slack DM, requires a user ID/email) you should explicitly ask the user for this information." ++ [nl] ++
  lit "    - It is preferred for you to ask for information, don't assume anything that you do not know!" ++ [nl] ++
  lit "    - When the user provides information that is useful for future use, you should update your memories immediately." ++ [nl] ++
  [nl] ++
  lit "    **When to update memories:**" ++ [nl] ++
  lit "    - When the user explicitly asks you to remember something (e.g., " ++ [dq] ++ lit "remember my email" ++ [dq] ++ lit ", " ++ [dq] ++ lit "save this preference" ++ [dq] ++ lit ")" ++ [nl] ++
  lit "    - When the user describes your role or how you should behave (e.g., " ++ [dq] ++ lit "you are a web researcher" ++ [dq] ++ lit ", " ++ [dq] ++ lit "always do X" ++ [dq] ++ lit ")" ++ [nl] ++
  lit "    - When the user gives feedback on your work - capture what was wrong and how to improve" ++ [nl] ++
  lit "    - When the user provides information required for tool use (e.g., slack channel ID, email addresses)" ++ [nl] ++
  lit "    - When the user provides context useful for future tasks, such as how to use tools, or which actions to take in a particular situation" ++ [nl] ++
  lit "    - When you discover new patterns or preferences (coding styles, conventions, workflows)" ++ [nl] ++
  [nl] ++
  lit "    **When to NOT update memories:**" ++ [nl] ++
  lit "    - When the information is temporary or transient (e.g., " ++ [dq] ++ lit "I'm running late" ++ [dq] ++ lit ", " ++ [dq] ++ lit "I'm on my phone right now" ++ [dq] ++ lit ")" ++ [nl] ++
  lit "    - When the information is a one-time task request (e.g., " ++ [dq] ++ lit "Find me a recipe" ++ [dq] ++ lit ", " ++ [dq] ++ lit "What's 25 * 4?" ++ [dq] ++ lit ")" ++ [nl] ++
  lit "    - When the information is a simple question that doesn't reveal lasting preferences (e.g., " ++ [dq] ++ lit "What day is it?" ++ [dq] ++ lit ", " ++ [dq] ++ lit "Can you explain X?" ++ [dq] ++ lit ")" ++ [nl] ++
  lit "    - When the information is an acknowledgment or small talk (e.g., " ++ [dq] ++ lit "Sounds good!" ++ [dq] ++ lit ", " ++ [dq] ++ lit "Hello" ++ [dq] ++ lit ", " ++ [dq] ++ lit "Thanks for that" ++ [dq] ++ lit ")" ++ [nl] ++
  lit "    - When the information is stale or irrelevant in future conversations" ++ [nl] ++
  lit "    - Never store API keys, access tokens, passwords, or any other credentials in any file, memory, or system prompt." ++ [nl] ++
  lit "    - If the user asks where to put API keys or provides an API key, do NOT echo or save it." ++ [nl] ++
  [nl] ++
  lit "    **Examples:**" ++ [nl] ++
  lit "    Example 1 (remembering user information):" ++ [nl] ++
  lit "    User: Can you connect to my google account?" ++ [nl] ++
  lit "    Agent: Sure, I'll connect to your google account, what's your google account email?" ++ [nl] ++
  lit "    User: john@example.com" ++ [nl] ++
  lit "    Agent: Let me save this to my memory." ++ [nl] ++
  lit "    Tool Call: edit_file(...) -> remembers that the user's google account email is john@example.com" ++ [nl] ++
  [nl] ++
  lit "    Example 2 (remembering implicit user preferences):" ++ [nl] ++
  lit "    User: Can you write me an example for creating a deep agent in LangChain?" ++ [nl] ++
  lit "    Agent: Sure, I'll write you an example for creating a deep agent in LangChain <example code in Python>" ++ [nl] ++
  lit "    User: Can you do this in JavaScript" ++ [nl] ++
  lit "    Agent: Let me save this to my memory." ++ [nl] ++
  lit "    Tool Call: edit_file(...) -> remembers that the user prefers to get LangChain code examples in JavaScript" ++ [nl] ++
  lit "    Agent: Sure, here is the JavaScript example<example code in JavaScript>" ++ [nl] ++
  [nl] ++
  lit "    Example 3 (do not remember transient information):" ++ [nl] ++
  lit "    User: I'm going to play basketball tonight so I will be offline for a few hours." ++ [nl] ++
  lit "    Agent: Okay I'll add a block to your calendar." ++ [nl] ++
  lit "    Tool Call: create_calendar_event(...) -> just calls a tool, does not commit anything to memory, as it is transient information" ++ [nl] ++
  lit "</memory_guidelines>".

(** [contents[path]] is read as the lookup of an own key of the record:
    a source path is taken not to be the name of a member of
    [Object.prototype]. *)
Definition formatMemoryContents (contents : gmap str str)
    (sources : list str) : str :=
  if bool_decide (contents = ∅) then lit "(No memory loaded)"
  else
    let sections :=
      omap (fun path =>
              match contents !! path with
              | Some text =>
                  if truthy text then Some (path ++ [nl] ++ text) else None
              | None => None
              end) sources in
    match sections with
    | [] => lit "(No memory loaded)"
    | _ :: _ => join [nl; nl] sections
    end.

(** The request of a model call, as far as the hook reads and writes it:
    [rest] stands for everything else in it. *)
Record ModelRequest (Rest : Type) := mkModelRequest {
  mr_state : option AgentState;
  mr_systemPrompt : option str;
  mr_rest : Rest
}.
Arguments mkModelRequest {Rest} _ _ _.
Arguments mr_state {Rest} _.
Arguments mr_systemPrompt {Rest} _.
Arguments mr_rest {Rest} _.

(** The system prompt the hook forwards. *)
Definition memoryPrompt {Rest} (sources : list str)
    (request : ModelRequest Rest) : str :=
  let memoryContents := default ∅ (mr_state request ≫= memoryContents) in
  let formattedContents := formatMemoryContents memoryContents sources in
  let memorySection :=
    replace (lit "{memory_contents}") formattedContents MEMORY_SYSTEM_PROMPT in
  let currentSystemPrompt := or_else (mr_systemPrompt request) [] in
  if truthy currentSystemPrompt
  then memorySection ++ [nl; nl] ++ currentSystemPrompt
  else memorySection.

Definition wrapModelCall {W Rest Response} (sources : list str)
    (request : ModelRequest Rest)
    (handler : ModelRequest Rest -> M W Response) : M W Response :=
  handler
    (mkModelRequest (mr_state request)
       (Some (memoryPrompt sources request)) (mr_rest request)).

End MemoryPrompt.

(** ** The skills middleware: validation of a skill's name *)
Module SkillNames.
Import JS.

(** Regular expressions over characters, with the matcher by
    derivatives. *)
Inductive regex : Type :=
| Void
| Eps
| Class (p : ascii -> bool)
| Seq (r1 r2 : regex)
| Alt (r1 r2 : regex)
| Star (r : regex).

(** [r+] *)
Definition Plus (r : regex) : regex := Seq r (Star r).

Fixpoint nullable (r : regex) : bool :=
  match r with
  | Void => false
  | Eps => true
  | Class _ => false
  | Seq r1 r2 => nullable r1 && nullable r2
  | Alt r1 r2 => nullable r1 || nullable r2
  | Star _ => true
  end.

Fixpoint deriv (c : ascii) (r : regex) : regex :=
  match r with
  | Void => Void
  | Eps => Void
  | Class p => if p c then Eps else Void
  | Seq r1 r2 =>
      if nullable r1 then Alt (Seq (deriv c r1) r2) (deriv c r2)
      else Seq (deriv c r1) r2
  | Alt r1 r2 => Alt (deriv c r1) (deriv c r2)
  | Star r0 => Seq (deriv c r0) (Star r0)
  end.

(** [/^r$/.test(s)] *)
Fixpoint test (r : regex) (s : str) : bool :=
  match s with
  | [] => nullable r
  | c :: s' => test (deriv c r) s'
  end.

(** The strings a regular expression stands for. *)
Inductive re_match : regex -> str -> Prop :=
| match_eps : re_match Eps []
| match_class p c : p c = true -> re_match (Class p) [c]
| match_seq r1 r2 s1 s2 :
    re_match r1 s1 -> re_match r2 s2 -> re_match (Seq r1 r2) (s1 ++ s2)
| match_alt_l r1 r2 s : re_match r1 s -> re_match (Alt r1 r2) s
| match_alt_r r1 r2 s : re_match r2 s -> re_match (Alt r1 r2) s
| match_star_nil r : re_match (Star r) []
| match_star_cons r s1 s2 :
    re_match r s1 -> re_match (Star r) s2 -> re_match (Star r) (s1 ++ s2).

Definition MAX_SKILL_NAME_LENGTH : Z := 64.

(** [[a-z0-9]] *)
Definition lower_alnum (c : ascii) : bool :=
  let n := nat_of_ascii c in
  ((97 <=? n) && (n <=? 122) || (48 <=? n) && (n <=? 57))%nat.

Definition hyphen : ascii := "-"%char.

(** [[a-z0-9]+(-[a-z0-9]+)*] *)
Definition name_pattern : regex :=
  Seq (Plus (Class lower_alnum))
    (Star (Seq (Class (fun c => bool_decide (c = hyphen)))
             (Plus (Class lower_alnum)))).

(** [validateSkillName(name, directoryName)]: [(valid, error)]. *)
Definition validateSkillName (name directoryName : str) : bool * str :=
  if negb (truthy name) then (false, lit "name is required")
  else if (MAX_SKILL_NAME_LENGTH <? strlen name)%Z
  then (false, lit "name exceeds 64 characters")
  else if negb (test name_pattern name)
  then (false,
        lit "name must be lowercase alphanumeric with single hyphens only")
  else if negb (bool_decide (name = directoryName))
  then (false,
        lit "name '" ++ name ++ lit "' must match directory name '"
          ++ directoryName ++ lit "'")
  else (true, []).

(** A segment of a name: one or more lowercase letters or digits. *)
Definition segment (seg : str) : Prop :=
  seg <> [] /\ Forall (fun c => lower_alnum c = true) seg.

End SkillNames.

(** ** Notions used to state what the eviction wrapper leaves alone *)
Module FsViews.
Import JS Eff Types Fs.
Local Open Scope Z_scope.

(** The message is not a text, or a text within the threshold. *)
Definition within_threshold (limit : Z) (msg : ToolMessage) : Prop :=
  forall content,
    msg_content msg = ContentText content ->
    strlen content <= limit * NUM_CHARS_PER_TOKEN.

Definition message_within (limit : Z) (m : BaseMessage) : Prop :=
  match m with
  | IsToolMessage msg => within_threshold limit msg
  | OtherMessage _ => True
  end.

(** No message of the result is above the threshold. *)
Definition result_within (limit : Z) (r : ToolResult) : Prop :=
  match r with
  | ResultMessage msg => within_threshold limit msg
  | ResultCommand cmd =>
      match update cmd ≫= upd_messages with
      | Some messages => Forall (message_within limit) messages
      | None => True
      end
  end.

Definition no_brace (s : str) : Prop :=
  Forall (fun c => c <> "{"%char) s.

Section WithPlatform.
Context `{Platform}.

(** [p] is what the loop over a batch makes of [m]: a message that is not
    a tool message is kept; a tool message is kept or replaced by its
    notice, which answers the same tool call under the same name. *)
Definition processed_from (request : ToolCallRequest) (limit : Z)
    (m p : BaseMessage) : Prop :=
  match m with
  | OtherMessage text => p = OtherMessage text
  | IsToolMessage msg =>
      exists msg',
        p = IsToolMessage msg'
        /\ tool_call_id msg' = tool_call_id msg
        /\ msg_name msg' = msg_name msg
        /\ (msg' = msg
            \/ exists content,
                 msg_content msg = ContentText content
                 /\ limit * NUM_CHARS_PER_TOKEN < strlen content
                 /\ msg' = truncatedMessageOf request msg content)
  end.

End WithPlatform.
End FsViews.

(** ** More concrete cases *)
Module Cases.
Import JS Eff Types.
Local Open Scope Z_scope.

(** A text of 21 characters: one above a threshold of 5 tokens. *)
Definition big : Fs.ToolMessage :=
  Sample.text_message (Sample.long_line 21) "call_1".

Definition small : Fs.ToolMessage :=
  Sample.text_message (lit "done") "call_2".

(** A command carrying a note, the big message and the small one, and a
    [goto]. *)
Definition batch : Fs.Command :=
  Fs.mkCommand
    (Some (Fs.mkUpdate None
             (Some [Fs.OtherMessage (lit "note"); Fs.IsToolMessage big;
                    Fs.IsToolMessage small])
             ∅))
    (Some (lit "next")).

Definition search_request : Fs.ToolCallRequest (H := Sample.platform) :=
  Sample.request "search" "call_1".

(** A backend whose [write] rejects. *)
Definition full : BackendProtocol Sample.Disk :=
  mkBackend
    (fun _ w => (Ok [], w))
    (fun p _ _ w => (Ok (lit "Error: File '" ++ p ++ lit "' not found"), w))
    (fun _ _ w => (Thrown (mkError (lit "disk full")), w))
    None.

Definition on_full
  : BackendOrFactory (@World Sample.platform) (@Store Sample.platform) :=
  BackendInstance full.

(** A handler that rejects. *)
Definition failing : Fs.ToolHandler (H := Sample.platform) :=
  fun _ => throw (mkError (lit "tool failed")).

End Cases.

(** * Properties *)

(** ** The files reducer *)
Module ReducerProofs.
Import JS Eff Types Fs.

(** The merge loop, entry by entry: the last word on a key is the
    update's, every other key is left alone. *)
Lemma merge_loop_lookup (l : list (str * option FileData))
    (c : FilesRecord) (k : str) :
  NoDup l.*1 ->
  foldl (fun (result : FilesRecord) '(key, value) =>
           match value with
           | None => delete key result
           | Some v => <[key := v]> result
           end) c l !! k
  = match (list_to_map l : FilesRecordUpdate) !! k with
    | Some (Some v) => Some v
    | Some None => None
    | None => c !! k
    end.
Proof.
  revert c. induction l as [|[k0 v0] l IH]; intros c Hnd; simpl.
  - by rewrite lookup_empty.
  - apply NoDup_cons in Hnd as [Hk0 Hnd].
    rewrite IH by done.
    destruct (decide (k0 = k)) as [->|Hne].
    + rewrite lookup_insert_eq.
      rewrite (not_elem_of_list_to_map_1 l k) by done.
      destruct v0; [apply lookup_insert_eq | apply lookup_delete_eq].
    + rewrite lookup_insert_ne by done.
      destruct ((list_to_map l : FilesRecordUpdate) !! k) as [[?|]|]; try done.
      destruct v0; [by rewrite lookup_insert_ne | by rewrite lookup_delete_ne].
Qed.

(** The seeding loop used when there is no current record. *)
Lemma seed_loop_lookup (l : list (str * option FileData))
    (c : FilesRecord) (k : str) :
  NoDup l.*1 ->
  foldl (fun (result : FilesRecord) '(key, value) =>
           match value with
           | Some v => <[key := v]> result
           | None => result
           end) c l !! k
  = match (list_to_map l : FilesRecordUpdate) !! k with
    | Some (Some v) => Some v
    | _ => c !! k
    end.
Proof.
  revert c. induction l as [|[k0 v0] l IH]; intros c Hnd; simpl.
  - by rewrite lookup_empty.
  - apply NoDup_cons in Hnd as [Hk0 Hnd].
    rewrite IH by done.
    destruct (decide (k0 = k)) as [->|Hne].
    + rewrite lookup_insert_eq.
      rewrite (not_elem_of_list_to_map_1 l k) by done.
      destruct v0; [apply lookup_insert_eq | done].
    + rewrite lookup_insert_ne by done.
      destruct ((list_to_map l : FilesRecordUpdate) !! k) as [[?|]|]; try done;
        destruct v0; by rewrite ?lookup_insert_ne.
Qed.

(** Lookup in the merged record, whatever the current record is. *)
Lemma fileDataReducer_lookup (C : option FilesRecord)
    (u : FilesRecordUpdate) (k : str) :
  fileDataReducer C (Some u) !! k
  = match u !! k with
    | Some (Some v) => Some v
    | Some None => None
    | None => default ∅ C !! k
    end.
Proof.
  unfold fileDataReducer. destruct C as [c|]; simpl.
  - rewrite merge_loop_lookup by apply NoDup_fst_map_to_list.
    by rewrite list_to_map_to_list.
  - rewrite seed_loop_lookup by apply NoDup_fst_map_to_list.
    rewrite list_to_map_to_list, lookup_empty.
    by destruct (u !! k) as [[?|]|].
Qed.


(** C3. Merging the same update a second time changes nothing. *)
Theorem fileDataReducer_idempotent (C : option FilesRecord)
    (U : option FilesRecordUpdate) :
  fileDataReducer (Some (fileDataReducer C U)) U = fileDataReducer C U.
Proof.
  destruct U as [u|]; [|done].
  apply map_eq. intros k.
  rewrite (fileDataReducer_lookup (Some _)).
  destruct (u !! k) as [[v|]|] eqn:Hk; [| |done];
    by rewrite (fileDataReducer_lookup C), Hk.
Qed.

End ReducerProofs.

(** ** Facts about the string and array primitives *)
Module JSFacts.
Import JS.

Lemma split_by_nonempty (p : ascii -> bool) (s : str) : split_by p s <> [].
Proof.
  induction s as [|c r IH]; simpl; [done|].
  destruct (p c); [done|]. by destruct (split_by p r).
Qed.

(** No piece of a split holds a separator. *)
Lemma split_by_pieces (p : ascii -> bool) (s : str) :
  Forall (Forall (fun c => p c = false)) (split_by p s).
Proof.
  induction s as [|c r IH]; simpl.
  - by repeat constructor.
  - destruct (p c) eqn:Hc.
    + by constructor.
    + destruct (split_by p r) as [|h t]; [by repeat constructor|].
      apply Forall_cons in IH as [Hh Ht].
      constructor; [by constructor|done].
Qed.


Lemma split_by_single (p : ascii -> bool) (l : str) :
  Forall (fun c => p c = false) l -> split_by p l = [l].
Proof.
  induction 1 as [|c l Hc _ IH]; simpl; [done|]. by rewrite Hc, IH.
Qed.

Lemma split_by_app_sep (p : ascii -> bool) (l : str) (c : ascii) (r : str) :
  Forall (fun c => p c = false) l -> p c = true ->
  split_by p (l ++ c :: r) = l :: split_by p r.
Proof.
  intros Hl Hc. induction Hl as [|a l Ha _ IH]; simpl.
  - by rewrite Hc.
  - by rewrite Ha, IH.
Qed.

Lemma no_nl_app (a b : str) : no_nl a -> no_nl b -> no_nl (a ++ b).
Proof. apply Forall_app_2. Qed.

Lemma no_nl_take (n : nat) (l : str) : no_nl l -> no_nl (take n l).
Proof. apply Forall_take. Qed.

Lemma split_pieces (s : str) : Forall no_nl (split nl s).
Proof. apply split_by_pieces. Qed.

(** Splitting what was joined gives the pieces back, provided there is a
    piece and no piece holds a newline. *)
Lemma split_join (parts : list str) :
  parts <> [] -> Forall no_nl parts -> split nl (join [nl] parts) = parts.
Proof.
  intros Hne Hall. induction Hall as [|p parts Hp Hall IH]; [done|].
  destruct parts as [|q parts].
  - simpl. by apply split_by_single.
  - change (join [nl] (p :: q :: parts))
      with (p ++ nl :: join [nl] (q :: parts)).
    unfold split. rewrite split_by_app_sep; [|done|by rewrite bool_decide_eq_true].
    f_equal. by apply IH.
Qed.


Lemma join_app (sep : str) (a b : list str) :
  a <> [] -> b <> [] -> join sep (a ++ b) = join sep a ++ sep ++ join sep b.
Proof.
  intros Ha Hb. induction a as [|x a IH]; [done|].
  destruct a as [|y a].
  - simpl. by destruct b.
  - change (join sep ((x :: y :: a) ++ b))
      with (x ++ sep ++ join sep ((y :: a) ++ b)).
    rewrite IH by done. simpl. by rewrite <- !app_assoc.
Qed.


(** *** [slice] *)

Lemma slice_head {A} (n : Z) (l : list A) :
  (0 <= n)%Z -> slice 0 (Some n) l = take (Z.to_nat n) l.
Proof.
  intros Hn. unfold slice, rel_index.
  replace (0 <? 0)%Z with false by done.
  replace (n <? 0)%Z with false by lia.
  rewrite (Z.min_l 0) by lia. simpl. rewrite drop_0, Z.sub_0_r.
  destruct (decide (n <= Z.of_nat (length l))%Z).
  - by rewrite Z.min_l by lia.
  - rewrite Z.min_r, Nat2Z.id by lia.
    rewrite !take_ge; [done|lia|lia].
Qed.

Lemma slice_tail {A} (n : Z) (l : list A) :
  (0 < n <= Z.of_nat (length l))%Z ->
  slice (- n) None l = drop (length l - Z.to_nat n) l.
Proof.
  intros Hn. unfold slice, rel_index.
  replace (- n <? 0)%Z with true by lia.
  rewrite Z.max_l by lia.
  replace (Z.to_nat (Z.of_nat (length l) + - n)) with (length l - Z.to_nat n)%nat
    by lia.
  apply take_ge. rewrite length_drop. lia.
Qed.

(** *** [replace] *)

Lemma strip_prefix_spec (p s r : str) :
  strip_prefix p s = Some r -> s = p ++ r.
Proof.
  revert s. induction p as [|a p IH]; intros [|b s]; simpl; try congruence.
  case_decide; [|done]. intros Hr. subst b. f_equal. by apply IH.
Qed.

Lemma find_first_spec (pat s pre post : str) :
  find_first pat s = Some (pre, post) -> s = pre ++ pat ++ post.
Proof.
  revert pre. induction s as [|c s IH]; intros pre; simpl.
  - destruct (strip_prefix pat []) eqn:Hp; [|done].
    intros [= <- <-]. by apply strip_prefix_spec in Hp.
  - destruct (strip_prefix pat (c :: s)) eqn:Hp.
    + intros [= <- <-]. by apply strip_prefix_spec in Hp.
    + destruct (find_first pat s) as [[pre' post']|]; [|done].
      intros [= <- <-]. simpl. f_equal. by apply IH.
Qed.

(** A replacement text without patterns is inserted as it is. *)
Lemma GetSubstitution_pattern_free (matched pre post repl : str) :
  pattern_free repl = true -> GetSubstitution matched pre post repl = repl.
Proof.
  induction repl as [|c r IH]; [done|].
  simpl. intros [Hc Hr]%andb_prop. specialize (IH Hr).
  destruct (decide (c = dollar)) as [->|Hne]; [|by rewrite IH].
  destruct r as [|d r']; [done|].
  apply negb_true_iff, bool_decide_eq_false in Hc.
  repeat (case_decide; [subst d; exfalso; apply Hc; set_solver|]).
  by rewrite IH.
Qed.

Lemma replace_pattern_free (pat repl s pre post : str) :
  find_first pat s = Some (pre, post) -> pattern_free repl = true ->
  replace pat repl s = pre ++ repl ++ post.
Proof.
  intros Hf Hr. unfold replace.
  by rewrite Hf, GetSubstitution_pattern_free.
Qed.


(** *** [Number_toString] *)

Lemma mod10_cases (n : Z) :
  let d := (n mod 10)%Z in
  d = 0%Z \/ d = 1%Z \/ d = 2%Z \/ d = 3%Z \/ d = 4%Z \/ d = 5%Z
  \/ d = 6%Z \/ d = 7%Z \/ d = 8%Z \/ d = 9%Z.
Proof. intros d. pose proof (Z.mod_pos_bound n 10). lia. Qed.

Lemma digit_no_nl (n : Z) : bool_decide (digit (n mod 10) = nl) = false.
Proof.
  pose proof (mod10_cases n) as Hd. simpl in Hd.
  repeat (destruct Hd as [->|Hd]; [done|]). by rewrite Hd.
Qed.

Lemma digit_value (n : Z) :
  (Z.of_nat (nat_of_ascii (digit (n mod 10))) - 48 = n mod 10)%Z.
Proof.
  pose proof (mod10_cases n) as Hd. simpl in Hd.
  repeat (destruct Hd as [->|Hd]; [done|]). by rewrite Hd.
Qed.

Lemma digits_no_nl (fuel : nat) (n : Z) (acc : str) :
  no_nl acc -> no_nl (digits fuel n acc).
Proof.
  revert n acc. induction fuel as [|f IH]; intros n acc Hacc; simpl; [done|].
  assert (no_nl (digit (n mod 10) :: acc))
    by (constructor; [apply digit_no_nl|done]).
  destruct (n <? 10)%Z; [done|by apply IH].
Qed.


(** The digits written are those of [n]: read back, they give [n]. *)
Lemma digits_value (fuel : nat) (n : Z) (acc : str) :
  (0 <= n < 2 ^ Z.of_nat fuel)%Z ->
  foldl (fun a c => 10 * a + (Z.of_nat (nat_of_ascii c) - 48))%Z 0%Z
    (digits fuel n acc)
  = foldl (fun a c => 10 * a + (Z.of_nat (nat_of_ascii c) - 48))%Z n acc.
Proof.
  revert n acc. induction fuel as [|f IH]; intros n acc Hn.
  - simpl in *. by replace n with 0%Z by lia.
  - cbn [digits]. destruct (n <? 10)%Z eqn:Hlt.
    + cbn [foldl]. rewrite digit_value, Z.mod_small by lia. done.
    + rewrite IH.
      * cbn [foldl]. rewrite digit_value. f_equal.
        pose proof (Z.div_mod n 10). lia.
      * rewrite Nat2Z.inj_succ, Z.pow_succ_r in Hn by lia.
        split; [apply Z.div_pos; lia|].
        apply Z.div_lt_upper_bound; lia.
Qed.

Lemma Number_toString_no_nl (n : Z) : no_nl (Number_toString n).
Proof.
  unfold Number_toString. destruct (n <? 0)%Z.
  - constructor; [done|]. apply digits_no_nl. constructor.
  - apply digits_no_nl. constructor.
Qed.

Lemma Number_toString_value (n : Z) :
  (0 <= n)%Z -> decimal_value (Number_toString n) = n.
Proof.
  intros Hn. unfold Number_toString, decimal_value.
  replace (n <? 0)%Z with false by lia.
  rewrite digits_value; [done|].
  split; [done|].
  rewrite Nat2Z.inj_succ, Z2Nat.id by apply Z.log2_nonneg.
  destruct (decide (n = 0%Z)) as [->|]; [done|].
  apply Z.log2_spec. lia.
Qed.



End JSFacts.

(** ** Facts about the concrete platform *)
Module SampleFacts.
Import JS JSFacts Sample.

Lemma line_prefix_no_nl (n : Z) : no_nl (line_prefix n).
Proof.
  unfold line_prefix, padStart.
  apply no_nl_app; [apply no_nl_app|by repeat constructor].
  - apply Forall_forall. intros c Hc.
    apply list_elem_of_In, repeat_spec in Hc. by subst c.
  - apply Number_toString_no_nl.
Qed.




End SampleFacts.

(** ** The preview of an evicted result *)
Module PreviewProofs.
Import JS JSFacts Eff Types Fs.
Local Open Scope Z_scope.

Section WithPlatform.
Context `{Platform}.

Lemma Forall_imap_line {A B} (P : A -> Prop) (Q : B -> Prop)
    (f : nat -> A -> B) (l : list A) :
  (forall i x, P x -> Q (f i x)) -> Forall P l -> Forall Q (imap f l).
Proof.
  intros Hf Hl. revert f Hf.
  induction Hl as [|x l Hx _ IH]; intros f Hf; simpl; constructor.
  - by apply Hf.
  - apply IH. intros i y. apply Hf.
Qed.

Lemma imap_nonempty {A B} (f : nat -> A -> B) (l : list A) :
  l <> [] -> imap f l <> [].
Proof. by destruct l. Qed.

Lemma nonempty_of_length {A} (l : list A) : (0 < length l)%nat -> l <> [].
Proof. destruct l; simpl; [lia|done]. Qed.

(** The numbered-line formatting of capped lines, piece by piece. *)
Lemma format_capped (ls : list str) (start : Z) :
  formatContentWithLineNumbers (map (substring0 1000) ls) start
  = join [nl]
      (imap (fun i line =>
               lineNumberPrefix (start + Z.of_nat i) ++ take 1000 line) ls).
Proof.
  unfold formatContentWithLineNumbers. f_equal.
  change (map (substring0 1000) ls) with (substring0 1000 <$> ls).
  by rewrite imap_fmap.
Qed.

Lemma numbered_no_nl (ls : list str) (start : Z) :
  (forall n, no_nl (lineNumberPrefix n)) ->
  Forall no_nl ls ->
  Forall no_nl
    (imap (fun i line =>
             lineNumberPrefix (start + Z.of_nat i) ++ take 1000 line) ls).
Proof.
  intros Hp. apply Forall_imap_line. intros i x Hx.
  apply no_nl_app; [apply Hp | by apply no_nl_take].
Qed.

Lemma marker_no_nl (n : Z) :
  no_nl (lit "... [" ++ Number_toString n ++ lit " lines truncated] ...").
Proof.
  apply no_nl_app; [by repeat constructor|].
  apply no_nl_app; [by apply Number_toString_no_nl|by repeat constructor].
Qed.

(** The preview of a long text as a join of its output lines. *)
Lemma createContentPreview_long (contentStr : str) :
  let lines := split nl contentStr in
  let total := Z.of_nat (length lines) in
  10 < total ->
  createContentPreview contentStr 5 5
  = join [nl]
      (imap (fun i line =>
               lineNumberPrefix (1 + Z.of_nat i) ++ take 1000 line)
         (take 5 lines)
       ++ [lit "... [" ++ Number_toString (total - 10)
             ++ lit " lines truncated] ..."]
       ++ imap (fun i line =>
                  lineNumberPrefix (total - 5 + 1 + Z.of_nat i)
                    ++ take 1000 line)
            (drop (length lines - 5) lines)).
Proof.
  intros lines total Htotal. unfold createContentPreview.
  fold lines. fold total.
  replace (total <=? 5 + 5) with false by lia.
  rewrite slice_head, slice_tail by (fold total; lia).
  rewrite !format_capped.
  change (Z.to_nat 5) with 5%nat.
  replace (total - 5 - 5) with (total - 10) by lia.
  assert (length (take 5 lines) = 5%nat) as Hhead
    by (rewrite length_take; lia).
  assert (length (drop (length lines - 5) lines) = 5%nat) as Htail
    by (rewrite length_drop; lia).
  rewrite join_app; [|apply imap_nonempty, nonempty_of_length; lia|done].
  rewrite (join_app _ [_]);
    [|done|apply imap_nonempty, nonempty_of_length; lia].
  simpl. by rewrite <- !app_assoc.
Qed.



(** C4. With [head = tail = 5], a text of at most 10 lines is shown
    line by line, every line capped at 1000 characters and numbered from
    1; a longer text gives exactly 5 + 5 + 1 output lines: its first
    five lines, one marker line stating the number of omitted lines
    (the total minus 10), and its last five lines numbered from
    total - 5 + 1. *)
Theorem createContentPreview_lines (contentStr : str) :
  (forall n, no_nl (lineNumberPrefix n)) ->
  let lines := split nl contentStr in
  let total := Z.of_nat (length lines) in
  let numbered (start : Z) (ls : list str) :=
    imap (fun i line =>
            lineNumberPrefix (start + Z.of_nat i) ++ take 1000 line) ls in
  let out := split nl (createContentPreview contentStr 5 5) in
  (total <= 10 -> out = numbered 1 lines)
  /\ (10 < total ->
      out = numbered 1 (take 5 lines)
            ++ [lit "... [" ++ Number_toString (total - 10)
                  ++ lit " lines truncated] ..."]
            ++ numbered (total - 5 + 1) (drop (length lines - 5) lines)
      /\ length out = 11%nat
      /\ decimal_value (Number_toString (total - 10)) = total - 10).
Proof.
  intros Hp lines total numbered out.
  pose proof (split_pieces contentStr) as Hlines. fold lines in Hlines.
  split; intros Htotal.
  - subst out. unfold createContentPreview. fold lines. fold total.
    replace (total <=? 5 + 5) with true by lia.
    rewrite format_capped. apply split_join.
    + apply imap_nonempty, split_by_nonempty.
    + by apply numbered_no_nl.
  - assert (out = numbered 1 (take 5 lines)
            ++ [lit "... [" ++ Number_toString (total - 10)
                  ++ lit " lines truncated] ..."]
            ++ numbered (total - 5 + 1) (drop (length lines - 5) lines))
      as Hout.
    { subst out. rewrite createContentPreview_long by done.
      apply split_join.
      - intros [Hnil _]%app_eq_nil. revert Hnil.
        apply imap_nonempty, nonempty_of_length.
        rewrite length_take. fold lines. lia.
      - apply Forall_app_2; [|apply Forall_app_2].
        + apply numbered_no_nl; [done|by apply Forall_take].
        + constructor; [|done]. apply marker_no_nl.
        + apply numbered_no_nl; [done|by apply Forall_drop]. }
    split; [done|]. split.
    + rewrite Hout. subst numbered. cbn beta.
      rewrite !length_app, !length_imap, length_take, length_drop.
      cbn [length]. unfold total in Htotal. lia.
    + apply Number_toString_value. lia.
Qed.

End WithPlatform.

(** The theorem at work: twelve rows on the concrete platform give eleven
    output lines, the sixth being the marker for two omitted rows and the
    seventh the eighth row. *)
Lemma createContentPreview_lines_witness :
  let out :=
    split nl
      (createContentPreview (H := Sample.platform)
         (Sample.lines_of 12 (lit "row")) 5 5) in
  length out = 11%nat
  /\ out !! 5%nat = Some (lit "... [2 lines truncated] ...")
  /\ out !! 6%nat = Some (lit "     8" ++ [Sample.tab] ++ lit "row").
Proof.
  destruct (createContentPreview_lines (H := Sample.platform)
              (Sample.lines_of 12 (lit "row"))
              SampleFacts.line_prefix_no_nl) as [_ Hlong].
  destruct Hlong as (Hout & Hlen & _); [by vm_compute|].
  cbv zeta. split; [exact Hlen|].
  rewrite Hout. by vm_compute.
Defined.

End PreviewProofs.

(** ** The eviction wrapper *)
Module EvictionProofs.
Import JS JSFacts Eff Types Fs.
Local Open Scope Z_scope.

Section WithPlatform.
Context `{Platform}.

Lemma excluded_names_truthy (toolName : str) :
  toolName ∈ TOOLS_EXCLUDED_FROM_EVICTION -> truthy toolName = true.
Proof.
  unfold TOOLS_EXCLUDED_FROM_EVICTION. rewrite !elem_of_cons.
  intros Hin. repeat (destruct Hin as [->|Hin]; [done|]).
  by apply elem_of_nil in Hin.
Qed.

Lemma excluded_from_eviction_true (request : ToolCallRequest)
    (tc : ToolCall) (toolName : str) :
  toolCall request = Some tc -> tc_name tc = Some toolName ->
  toolName ∈ TOOLS_EXCLUDED_FROM_EVICTION ->
  excluded_from_eviction request = true.
Proof.
  intros Htc Hname Hin. unfold excluded_from_eviction.
  rewrite Htc. simpl. rewrite Hname.
  by rewrite excluded_names_truthy, bool_decide_eq_true_2.
Qed.

(** The wrapper on an exempt request is the handler. *)
Lemma wrapToolCall_excluded (backend : BackendOrFactory World Store)
    (limit : option Z) (request : ToolCallRequest) (handler : ToolHandler) :
  excluded_from_eviction request = true ->
  wrapToolCall backend limit request handler = handler request.
Proof.
  intros Hex. unfold wrapToolCall.
  destruct (truthy_limit limit); [|done].
  unfold excluded_from_eviction in Hex. by rewrite Hex.
Qed.

(** The wrapper with eviction switched off is the handler. *)
Lemma wrapToolCall_disabled (backend : BackendOrFactory World Store)
    (limit : option Z) (request : ToolCallRequest) (handler : ToolHandler) :
  truthy_limit limit = None ->
  wrapToolCall backend limit request handler = handler request.
Proof. intros Hl. unfold wrapToolCall. by rewrite Hl. Qed.

(** C6. For a tool call whose tool name is one of ls, glob, grep,
    read_file, edit_file and write_file, the wrapper of a filesystem
    middleware, whatever its options, is the underlying handler itself:
    the same result, whatever its size, the same effects, hence no
    relocation write and no state update of its own. *)
Theorem excluded_tools_pass_through
    (options : FilesystemMiddlewareOptions)
    (request : ToolCallRequest) (handler : ToolHandler)
    (tc : ToolCall) (toolName : str) :
  toolCall request = Some tc ->
  tc_name tc = Some toolName ->
  toolName ∈ TOOLS_EXCLUDED_FROM_EVICTION ->
  mw_wrapToolCall (createFilesystemMiddleware options) request handler
  = handler request.
Proof.
  intros Htc Hname Hin. simpl.
  apply wrapToolCall_excluded.
  by eapply excluded_from_eviction_true.
Qed.

(** What [processToolMessage] does with a text above the threshold,
    once the backend's [write] has resolved. *)
Lemma processToolMessage_large (backend : BackendOrFactory World Store)
    (request : ToolCallRequest) (limit : Z) (msg : ToolMessage)
    (content : str) (s : Sys World) (wr : WriteResult) (w2 : World) :
  msg_content msg = ContentText content ->
  limit * NUM_CHARS_PER_TOKEN < strlen content ->
  write (evictionBackend backend request) (evictPathOf request msg)
    content (world s) = (Ok wr, w2) ->
  processToolMessage backend request msg limit s
  = (Ok (if truthy_opt (error wr) then mkProcessed msg None
         else mkProcessed (truncatedMessageOf request msg content)
                (filesUpdate wr)),
     mkSys w2 (console s)).
Proof.
  intros Hc Hlen Hw. unfold processToolMessage. rewrite Hc.
  replace (strlen content >? limit * NUM_CHARS_PER_TOKEN) with true by lia.
  unfold bind, await.
  unfold evictionBackend, evictPathOf in Hw. rewrite Hw.
  by destruct (truthy_opt (error wr)).
Qed.

(** A message that is not a text, or a text within the threshold, is
    left alone and nothing is written. *)
Lemma processToolMessage_small (backend : BackendOrFactory World Store)
    (request : ToolCallRequest) (limit : Z) (msg : ToolMessage)
    (s : Sys World) :
  (forall content, msg_content msg = ContentText content ->
                   strlen content <= limit * NUM_CHARS_PER_TOKEN) ->
  processToolMessage backend request msg limit s
  = (Ok (mkProcessed msg None), s).
Proof.
  intros Hsmall. unfold processToolMessage.
  destruct (msg_content msg) as [content|blocks]; [|done].
  specialize (Hsmall content eq_refl).
  by replace (strlen content >? limit * NUM_CHARS_PER_TOKEN) with false by lia.
Qed.

(** The wrapper on a handler that answers with one tool message. *)
Lemma wrapToolCall_message (backend : BackendOrFactory World Store)
    (limit : Z) (request : ToolCallRequest) (handler : ToolHandler)
    (msg : ToolMessage) (s0 s : Sys World) :
  limit <> 0 ->
  excluded_from_eviction request = false ->
  handler request s0 = (Ok (ResultMessage msg), s) ->
  wrapToolCall backend (Some limit) request handler s0
  = match processToolMessage backend request msg limit s with
    | (Ok processed, s2) =>
        (Ok (match processed_filesUpdate processed with
             | Some filesUpdate =>
                 ResultCommand
                   (new_Command
                      (mkUpdate (Some filesUpdate)
                         (Some [IsToolMessage (message processed)]) ∅))
             | None => ResultMessage (message processed)
             end), s2)
    | (Thrown e, s2) => (Thrown e, s2)
    end.
Proof.
  intros Hl Hex Hh. unfold wrapToolCall, truthy_limit.
  replace (limit =? 0) with false by lia.
  unfold excluded_from_eviction in Hex. rewrite Hex.
  unfold bind at 1. rewrite Hh. unfold bind.
  destruct (processToolMessage backend request msg limit s) as [[p|e] s2];
    [|done].
  by destruct (processed_filesUpdate p).
Qed.

(** The wrapper on a handler that answers with a command carrying
    messages. *)
Lemma wrapToolCall_command (backend : BackendOrFactory World Store)
    (limit : Z) (request : ToolCallRequest) (handler : ToolHandler)
    (cmd : Command) (u : CommandUpdate) (messages : list BaseMessage)
    (s0 s : Sys World) :
  limit <> 0 ->
  excluded_from_eviction request = false ->
  handler request s0 = (Ok (ResultCommand cmd), s) ->
  update cmd = Some u ->
  upd_messages u = Some messages ->
  wrapToolCall backend (Some limit) request handler s0
  = match processMessages backend request limit messages false
            (default ∅ (upd_files u)) [] s with
    | (Ok (hasLargeResults, accumulatedFiles, processedMessages), s2) =>
        (Ok (if hasLargeResults : bool
             then ResultCommand
                    (new_Command
                       (mkUpdate (Some accumulatedFiles)
                          (Some processedMessages) (upd_others u)))
             else ResultCommand cmd), s2)
    | (Thrown e, s2) => (Thrown e, s2)
    end.
Proof.
  intros Hl Hex Hh Hu Hm. unfold wrapToolCall, truthy_limit.
  replace (limit =? 0) with false by lia.
  unfold excluded_from_eviction in Hex. rewrite Hex.
  unfold bind at 1. rewrite Hh, Hu, Hm. unfold bind.
  destruct (processMessages _ _ _ _ _ _ _ s) as [[[[flag acc] msgs]|e] s2];
    [|done].
  by destruct flag.
Qed.

(** One turn of the loop over the messages of a command. *)
Lemma processMessages_step (backend : BackendOrFactory World Store)
    (request : ToolCallRequest) (limit : Z) (msg : ToolMessage)
    (rest : list BaseMessage) (flag : bool) (acc : FilesRecordUpdate)
    (sofar : list BaseMessage) (s s2 : Sys World) (processed : Processed) :
  processToolMessage backend request msg limit s = (Ok processed, s2) ->
  processMessages backend request limit (IsToolMessage msg :: rest)
    flag acc sofar s
  = match processed_filesUpdate processed with
    | Some filesUpdate =>
        processMessages backend request limit rest true
          (filesUpdate ∪ acc)
          (sofar ++ [IsToolMessage (message processed)]) s2
    | None =>
        processMessages backend request limit rest flag acc
          (sofar ++ [IsToolMessage (message processed)]) s2
    end.
Proof.
  intros Hp. cbn [processMessages]. unfold bind at 1. rewrite Hp.
  by destruct (processed_filesUpdate processed).
Qed.

(** Once a result was relocated, the outgoing command is the rebuilt
    one: the flag of the loop never goes back. *)
Lemma processMessages_flag (backend : BackendOrFactory World Store)
    (request : ToolCallRequest) (limit : Z) (messages : list BaseMessage)
    (acc : FilesRecordUpdate) (sofar : list BaseMessage) (s : Sys World)
    (flag : bool) (acc' : FilesRecordUpdate) (msgs' : list BaseMessage)
    (s' : Sys World) :
  processMessages backend request limit messages true acc sofar s
  = (Ok (flag, acc', msgs'), s') ->
  flag = true.
Proof.
  revert acc sofar s.
  induction messages as [|[msg|text] rest IH]; intros acc sofar s; simpl.
  - by intros [= <- _ _ _].
  - unfold bind.
    destruct (processToolMessage backend request msg limit s)
      as [[p|e] s1]; [|done].
    destruct (processed_filesUpdate p); apply IH.
  - apply IH.
Qed.

(** C7. When the write to the derived path reports an error, the
    wrapper gives back the original oversized tool message as it is, with
    no notice in its place and no files update of its own, both for a
    single message and inside a command's batch; when the write reports
    no error, the notice takes the message's place and the write's files
    update, if it has one, goes into the outgoing state update: it is the
    [files] of the new command for a single message, and it is laid over
    the files accumulated so far inside a batch. An error is a non-empty
    [error] text in the write's result. *)
Theorem eviction_write_outcome (backend : BackendOrFactory World Store)
    (request : ToolCallRequest) (limit : Z) (msg : ToolMessage)
    (content : str) (s : Sys World) (wr : WriteResult) (w2 : World) :
  limit <> 0 ->
  excluded_from_eviction request = false ->
  msg_content msg = ContentText content ->
  limit * NUM_CHARS_PER_TOKEN < strlen content ->
  write (evictionBackend backend request) (evictPathOf request msg)
    content (world s) = (Ok wr, w2) ->
  let s2 := mkSys w2 (console s) in
  let notice := truncatedMessageOf request msg content in
  (truthy_opt (error wr) = true ->
     (forall handler s0,
         handler request s0 = (Ok (ResultMessage msg), s) ->
         wrapToolCall backend (Some limit) request handler s0
         = (Ok (ResultMessage msg), s2))
     /\ (forall rest flag acc sofar,
           processMessages backend request limit
             (IsToolMessage msg :: rest) flag acc sofar s
           = processMessages backend request limit rest flag acc
               (sofar ++ [IsToolMessage msg]) s2))
  /\ (truthy_opt (error wr) = false ->
      (forall handler s0,
          handler request s0 = (Ok (ResultMessage msg), s) ->
          wrapToolCall backend (Some limit) request handler s0
          = (Ok (match filesUpdate wr with
                 | Some fu =>
                     ResultCommand
                       (new_Command
                          (mkUpdate (Some fu)
                             (Some [IsToolMessage notice]) ∅))
                 | None => ResultMessage notice
                 end), s2))
      /\ (forall rest flag acc sofar,
            processMessages backend request limit
              (IsToolMessage msg :: rest) flag acc sofar s
            = match filesUpdate wr with
              | Some fu =>
                  processMessages backend request limit rest true
                    (fu ∪ acc) (sofar ++ [IsToolMessage notice]) s2
              | None =>
                  processMessages backend request limit rest flag acc
                    (sofar ++ [IsToolMessage notice]) s2
              end)).
Proof.
  intros Hl Hex Hc Hlen Hw s2 notice.
  pose proof (processToolMessage_large backend request limit msg content
                s wr w2 Hc Hlen Hw) as Hp.
  split; intros Herr; rewrite Herr in Hp; split.
  - intros handler s0 Hh.
    by rewrite (wrapToolCall_message _ _ _ _ msg s0 s), Hp.
  - intros rest flag acc sofar.
    by rewrite (processMessages_step _ _ _ _ _ _ _ _ _ _ _ Hp).
  - intros handler s0 Hh.
    rewrite (wrapToolCall_message _ _ _ _ msg s0 s), Hp by done.
    simpl. by destruct (filesUpdate wr).
  - intros rest flag acc sofar.
    rewrite (processMessages_step _ _ _ _ _ _ _ _ _ _ _ Hp).
    simpl. by destruct (filesUpdate wr).
Qed.



End WithPlatform.



(** The exemption at work: a read_file call answering 1000 characters,
    with a threshold of 10 tokens,
    comes back from the wrapper as the handler gave it, and the disk is as
    it was. *)
Lemma excluded_tools_pass_through_witness :
  mw_wrapToolCall
    (createFilesystemMiddleware (H := Sample.platform)
       (mkOptions (Some Sample.on_disk) (Value 10)))
    (Sample.request "read_file" "call_1")
    (Sample.answering
       (ResultMessage (Sample.text_message (Sample.long_line 1000) "call_1")))
    Sample.start
  = (Ok (ResultMessage (Sample.text_message (Sample.long_line 1000) "call_1")),
     Sample.start).
Proof.
  rewrite (excluded_tools_pass_through (H := Sample.platform) _ _ _
             (mkToolCall (Some (lit "read_file")) (Some (lit "call_1")))
             (lit "read_file")).
  - reflexivity.
  - reflexivity.
  - reflexivity.
  - apply (bool_decide_unpack _). by vm_compute.
Defined.

(** The write outcome at work. On a disk where the derived path is taken
    the write fails and the 21 characters, one more than the threshold
    of 5 tokens, come back untouched; with
    the in-state backend the write succeeds and the new command carries
    the file under the derived path. *)
Lemma eviction_write_outcome_witness :
  let big := Sample.text_message (Sample.long_line 21) "call_1" in
  let req := Sample.request "search" "call_1" in
  wrapToolCall (H := Sample.platform) Sample.on_disk
    (Some 5) req (Sample.answering (ResultMessage big)) Sample.occupied
  = (Ok (ResultMessage big), Sample.occupied)
  /\ exists notice,
      wrapToolCall (H := Sample.platform) Sample.on_state
        (Some 5) req (Sample.answering (ResultMessage big)) Sample.start
      = (Ok (ResultCommand
               (new_Command
                  (mkUpdate
                     (Some {[ lit "/large_tool_results/call_1" :=
                                Some (mkFileData [Sample.long_line 21] [] []) ]})
                     (Some [IsToolMessage notice]) ∅))),
         Sample.start).
Proof.
  intros big req. split.
  - pose proof (eviction_write_outcome (H := Sample.platform)
                  Sample.on_disk req 5 big
                  (Sample.long_line 21) Sample.occupied
                  (mkWriteResult
                     (Some (lit "Cannot write to /large_tool_results/call_1 because it already exists."))
                     None)
                  (world Sample.occupied)) as Hthm.
    destruct Hthm as [Herr _];
      [done|reflexivity|reflexivity|by vm_compute|reflexivity|].
    destruct Herr as [Hmsg _]; [reflexivity|].
    by apply Hmsg.
  - pose proof (eviction_write_outcome (H := Sample.platform)
                  Sample.on_state req 5 big
                  (Sample.long_line 21) Sample.start
                  (mkWriteResult None
                     (Some {[ lit "/large_tool_results/call_1" :=
                                Some (mkFileData [Sample.long_line 21] [] []) ]}))
                  (world Sample.start)) as Hthm.
    destruct Hthm as [_ Hok];
      [done|reflexivity|reflexivity|by vm_compute|reflexivity|].
    destruct Hok as [Hmsg _]; [reflexivity|].
    eexists. by apply Hmsg.
Defined.

End EvictionProofs.

(** ** The read_file tool *)
Module ReadFileProofs.
Import JS JSFacts Eff Types Fs.
Local Open Scope Z_scope.

Section WithPlatform.
Context `{Platform}.

(** The tool is the backend's read followed by the two steps. *)
Lemma readFileTool_result (backend : BackendOrFactory World Store)
    (tokenLimit : option Z) (input : ReadFileInput) (config : ToolConfig)
    (s : Sys World) (r : str) (w' : World) :
  read (getBackend backend
          (mkStateAndStore (currentTaskInput config) (config_store config)))
    (file_path input)
    (Some (default DEFAULT_READ_LINE_OFFSET (offset input)))
    (Some (default DEFAULT_READ_LINE_LIMIT (limit input)))
    (world s) = (Ok r, w') ->
  readFileTool backend tokenLimit input config s
  = (Ok (charCapped tokenLimit (file_path input)
           (lineLimited (default DEFAULT_READ_LINE_LIMIT (limit input)) r)),
     mkSys w' (console s)).
Proof.
  intros Hr. unfold readFileTool, bind, await. by rewrite Hr.
Qed.





End WithPlatform.



End ReadFileProofs.

(** ** The memory loader *)
Module MemoryProofs.
Import JS JSFacts Eff Types Memory.
Local Open Scope Z_scope.

Section WithPlatform.
Context `{Platform}.

(** What [loadMemoryFromBackend] does with the one response of a
    download that carries an error. *)
Lemma loadMemoryFromBackend_error (backend : BackendProtocol World)
    (dl : list str -> BackendOp World (list FileDownloadResponse))
    (path : str) (s : Sys World) (response : FileDownloadResponse)
    (w' : World) (e : str) :
  downloadFiles backend = Some dl ->
  dl [path] (world s) = (Ok [response], w') ->
  dl_error response = Some e ->
  loadMemoryFromBackend backend path s
  = (if decide (e = lit "file_not_found") then Ok None
     else Thrown (mkError (lit "Failed to download " ++ path
                             ++ lit ": " ++ e)),
     mkSys w' (console s)).
Proof.
  intros Hdl Hr He. unfold loadMemoryFromBackend. rewrite Hdl.
  unfold bind, await. rewrite Hr, He.
  by destruct (decide (e = lit "file_not_found")).
Qed.

(** One turn of the loop of [beforeAgent]. *)
Lemma loadSources_step (backend : BackendProtocol World) (path : str)
    (rest : list str) (contents : gmap str str) (s : Sys World) :
  loadSources backend (path :: rest) contents s
  = match loadMemoryFromBackend backend path s with
    | (Ok content, s1) =>
        loadSources backend rest
          (match content with
           | Some text =>
               if truthy text then <[path := text]> contents else contents
           | None => contents
           end) s1
    | (Thrown error, s1) =>
        loadSources backend rest contents
          (mkSys (world s1)
             (console s1
                ++ [mkLog LogDebug
                      (lit "Failed to load memory from " ++ path ++ lit ":")
                      (Some error)]))
    end.
Proof.
  cbn [loadSources]. unfold bind at 1, try_catch, bind.
  destruct (loadMemoryFromBackend backend path s) as [[[text|]|e] s1];
    try done.
  by destruct (truthy text).
Qed.

(** The loop never rejects: every error of a source is caught. *)
Lemma loadSources_resolves (backend : BackendProtocol World)
    (sources : list str) (contents : gmap str str) (s : Sys World) :
  exists contents' s',
    loadSources backend sources contents s = (Ok contents', s').
Proof.
  revert contents s. induction sources as [|path rest IH];
    intros contents s.
  - by eexists _, _.
  - rewrite loadSources_step.
    destruct (loadMemoryFromBackend backend path s) as [[content|e] s1];
      apply IH.
Qed.

(** The loop over a list in two parts. *)
Lemma loadSources_app (backend : BackendProtocol World)
    (before after : list str) (contents : gmap str str) (s : Sys World) :
  loadSources backend (before ++ after) contents s
  = match loadSources backend before contents s with
    | (Ok contents', s') => loadSources backend after contents' s'
    | (Thrown e, s') => (Thrown e, s')
    end.
Proof.
  revert contents s. induction before as [|path rest IH];
    intros contents s; [done|].
  change ((path :: rest) ++ after) with (path :: (rest ++ after)).
  rewrite !loadSources_step.
  destruct (loadMemoryFromBackend backend path s) as [[content|e] s1];
    apply IH.
Qed.

(** C8, as the code has it. For a source path at any place of the
    configured list, when the backend's download answers with an error:
    if the error is "file_not_found" the path is skipped silently, that
    is, [loadMemoryFromBackend] resolves to nothing, the console is left
    as it is, the contents gathered so far are unchanged and the loop
    goes on with the remaining paths; any other error makes
    [loadMemoryFromBackend] reject with an [Error] naming the path and
    the backend's error, which [beforeAgent] catches and writes to
    [console.debug] before it goes on with the remaining paths, the
    contents unchanged. The hook itself always resolves. *)
Theorem memory_source_errors (backend : BackendOrFactory World Store)
    (state : AgentState)
    (dl : list str -> BackendOp World (list FileDownloadResponse))
    (before after : list str) (path : str)
    (contents : gmap str str) (s0 s : Sys World)
    (response : FileDownloadResponse) (w' : World) (e : str) :
  let resolvedBackend := getBackend backend state in
  downloadFiles resolvedBackend = Some dl ->
  loadSources resolvedBackend before ∅ s0 = (Ok contents, s) ->
  dl [path] (world s) = (Ok [response], w') ->
  dl_error response = Some e ->
  let thrown :=
    mkError (lit "Failed to download " ++ path ++ lit ": " ++ e) in
  (e = lit "file_not_found" ->
     loadMemoryFromBackend resolvedBackend path s
     = (Ok None, mkSys w' (console s))
     /\ loadSources resolvedBackend (before ++ path :: after) ∅ s0
        = loadSources resolvedBackend after contents (mkSys w' (console s)))
  /\ (e <> lit "file_not_found" ->
      loadMemoryFromBackend resolvedBackend path s
      = (Thrown thrown, mkSys w' (console s))
      /\ loadSources resolvedBackend (before ++ path :: after) ∅ s0
         = loadSources resolvedBackend after contents
             (mkSys w'
                (console s
                   ++ [mkLog LogDebug
                         (lit "Failed to load memory from " ++ path
                            ++ lit ":")
                         (Some thrown)])))
  /\ (memoryContents state = None ->
      exists loaded s',
        beforeAgent backend (before ++ path :: after) state s0
        = (Ok (Some loaded), s')).
Proof.
  intros b Hdl Hbefore Hr He thrown.
  pose proof (loadMemoryFromBackend_error b dl path s response w' e
                Hdl Hr He) as Hload.
  split; [|split].
  - intros ->. rewrite decide_True in Hload by done.
    split; [done|].
    by rewrite loadSources_app, Hbefore, loadSources_step, Hload.
  - intros Hne. rewrite decide_False in Hload by done.
    split; [done|].
    by rewrite loadSources_app, Hbefore, loadSources_step, Hload.
  - intros Hstate. unfold beforeAgent. rewrite Hstate. fold b.
    destruct (loadSources_resolves b (before ++ path :: after) ∅ s0)
      as (loaded & s' & Hrun).
    exists loaded, s'. unfold bind. by rewrite Hrun.
Qed.

End WithPlatform.

(** On the backend that refuses every download, the loader of one path
    rejects, yet the hook resolves with no contents: the error went to
    [console.debug] and no further. *)
Lemma memory_error_swallowed_counterexample :
  let path := lit "/AGENTS.md" in
  let thrown :=
    mkError (lit "Failed to download /AGENTS.md: permission_denied") in
  loadMemoryFromBackend (H := Sample.platform) Sample.locked path Sample.start
  = (Thrown thrown, Sample.start)
  /\ beforeAgent (H := Sample.platform) Sample.on_locked [path] empty_state
       Sample.start
     = (Ok (Some ∅),
        mkSys []
          [mkLog LogDebug (lit "Failed to load memory from /AGENTS.md:")
             (Some thrown)]).
Proof. split; reflexivity. Qed.

(** The theorem at work on the same backend, for the second of three
    paths. *)
Lemma memory_source_errors_witness :
  let thrown :=
    mkError (lit "Failed to download /b.md: permission_denied") in
  loadSources (H := Sample.platform) Sample.locked
    ([lit "/a.md"] ++ lit "/b.md" :: [lit "/c.md"]) ∅ Sample.start
  = loadSources (H := Sample.platform) Sample.locked [lit "/c.md"] ∅
      (mkSys []
         [mkLog LogDebug (lit "Failed to load memory from /a.md:")
            (Some (mkError
                     (lit "Failed to download /a.md: permission_denied")));
          mkLog LogDebug (lit "Failed to load memory from /b.md:")
            (Some thrown)]).
Proof.
  intros thrown.
  destruct (memory_source_errors (H := Sample.platform) Sample.on_locked
              empty_state
              (fun paths w =>
                 (Ok (map (fun _ =>
                             mkDownload (Some (lit "permission_denied")) None)
                        paths), w))
              [lit "/a.md"] [lit "/c.md"] (lit "/b.md") ∅ Sample.start
              (mkSys []
                 [mkLog LogDebug (lit "Failed to load memory from /a.md:")
                    (Some (mkError
                             (lit "Failed to download /a.md: permission_denied")))])
              (mkDownload (Some (lit "permission_denied")) None)
              [] (lit "permission_denied"))
    as (_ & Hother & _).
  - reflexivity.
  - reflexivity.
  - reflexivity.
  - reflexivity.
  - destruct Hother as [_ Hloop]; [done|]. exact Hloop.
Defined.

End MemoryProofs.

(** ** The skills registry *)
Module SkillsProofs.
Import JS JSFacts Eff Types Skills.
Local Open Scope Z_scope.

Lemma Map_get_set {V} (key k : str) (v : V) (m : list (str * V)) :
  Map_get k (Map_set key v m)
  = if decide (k = key) then Some v else Map_get k m.
Proof.
  unfold Map_get. induction m as [|[k0 v0] m IH]; simpl.
  - case_bool_decide; case_decide; simplify_eq; done.
  - destruct (decide (k0 = key)) as [->|Hne]; simpl.
    + case_bool_decide; case_decide; simplify_eq; done.
    + case_bool_decide as Hk; [|done].
      subst k0. simpl. by rewrite decide_False.
Qed.

Lemma Map_set_keys {V} (key : str) (v : V) (m : list (str * V)) :
  (Map_set key v m).*1 = if decide (key ∈ m.*1) then m.*1 else m.*1 ++ [key].
Proof.
  induction m as [|[k0 v0] m IH]; cbn [Map_set fmap list_fmap fst].
  - case_decide as Hin; [by apply elem_of_nil in Hin|done].
  - destruct (decide (k0 = key)) as [->|Hne]; cbn [fmap list_fmap fst].
    + rewrite decide_True; [done|]. apply elem_of_cons. by left.
    + rewrite IH. destruct (decide (key ∈ m.*1)) as [Hin|Hnin].
      * rewrite decide_True; [done|]. apply elem_of_cons. by right.
      * rewrite decide_False; [done|].
        rewrite elem_of_cons. intros [?|?]; congruence.
Qed.

Lemma Map_set_NoDup {V} (key : str) (v : V) (m : list (str * V)) :
  NoDup m.*1 -> NoDup (Map_set key v m).*1.
Proof.
  intros Hnd. rewrite Map_set_keys. case_decide; [done|].
  apply NoDup_app. split; [done|]. split; [|apply NoDup_singleton].
  intros x Hx Hx'. apply list_elem_of_singleton in Hx'. by subst x.
Qed.

Lemma Map_set_keyed (skill : SkillMetadata) (m : list (str * SkillMetadata)) :
  keyed_by_name m -> keyed_by_name (Map_set (name skill) skill m).
Proof.
  unfold keyed_by_name. induction 1 as [|[k0 v0] m Hk Hm IH]; simpl.
  - by constructor.
  - case_decide; constructor; done.
Qed.

Lemma latest_named_cons (n : str) (skill : SkillMetadata)
    (skills : list SkillMetadata) :
  latest_named n (skill :: skills)
  = match latest_named n skills with
    | Some later => Some later
    | None => if decide (name skill = n) then Some skill else None
    end.
Proof.
  unfold latest_named. rewrite filter_cons.
  destruct (decide (name skill = n)); [|by destruct (last _)].
  by rewrite last_cons.
Qed.


Lemma latest_named_name (n : str) (skills : list SkillMetadata)
    (skill : SkillMetadata) :
  latest_named n skills = Some skill -> name skill = n /\ skill ∈ skills.
Proof.
  unfold latest_named. intros Hl.
  apply last_Some_elem_of in Hl. by apply list_elem_of_filter in Hl.
Qed.

(** Lookup after setting a whole list of skills: the latest of the list
    under that name, or what was there. *)
Lemma set_all_get (n : str) (skills : list SkillMetadata)
    (m : list (str * SkillMetadata)) :
  Map_get n (set_all skills m)
  = match latest_named n skills with
    | Some skill => Some skill
    | None => Map_get n m
    end.
Proof.
  unfold set_all. revert m. induction skills as [|skill skills IH];
    intros m; simpl; [done|].
  rewrite IH, latest_named_cons, Map_get_set.
  destruct (latest_named n skills); [done|].
  destruct (decide (name skill = n)) as [<-|Hne].
  - by rewrite decide_True.
  - by rewrite decide_False.
Qed.

Lemma set_all_invariants (skills : list SkillMetadata)
    (m : list (str * SkillMetadata)) :
  NoDup m.*1 -> keyed_by_name m ->
  NoDup (set_all skills m).*1 /\ keyed_by_name (set_all skills m).
Proof.
  unfold set_all. revert m. induction skills as [|skill skills IH];
    intros m Hnd Hk; simpl; [done|].
  apply IH; [by apply Map_set_NoDup|by apply Map_set_keyed].
Qed.

Lemma set_all_app (a b : list SkillMetadata) (m : list (str * SkillMetadata)) :
  set_all (a ++ b) m = set_all b (set_all a m).
Proof. unfold set_all. apply foldl_app. Qed.

Lemma keyed_names (m : list (str * SkillMetadata)) :
  keyed_by_name m -> name <$> Map_values m = m.*1.
Proof.
  unfold Map_values. induction 1 as [|[k v] m Hkv _ IH]; [done|].
  rewrite !fmap_cons. cbn [fst snd] in *. by rewrite IH, Hkv.
Qed.

Lemma Map_get_elem {V} (k : str) (v : V) (m : list (str * V)) :
  Map_get k m = Some v -> (k, v) ∈ m.
Proof.
  unfold Map_get. induction m as [|[k0 v0] m IH]; [done|].
  cbn [find fst]. case_bool_decide as Hk.
  - intros [= ->]. subst k0. by left.
  - intros Hm. right. by apply IH.
Qed.

Lemma Map_get_fresh {V} (k : str) (m : list (str * V)) :
  k ∉ m.*1 -> Map_get k m = None.
Proof.
  intros Hk. destruct (Map_get k m) as [v|] eqn:Hg; [|done].
  exfalso. apply Hk. apply Map_get_elem in Hg.
  by apply (list_elem_of_fmap_2 fst) in Hg.
Qed.

(** In a registry keyed by name without a repeated key, the values are
    exactly what lookup by name finds, and no name occurs twice. *)
Lemma Map_values_spec (m : list (str * SkillMetadata)) :
  NoDup m.*1 -> keyed_by_name m ->
  NoDup (name <$> Map_values m)
  /\ (forall skill,
        skill ∈ Map_values m <-> Map_get (name skill) m = Some skill).
Proof.
  intros Hnd Hk. split; [by rewrite keyed_names|].
  intros skill. split.
  - unfold Map_values. intros Hin.
    apply list_elem_of_fmap in Hin as ([k v] & -> & Hin). cbn [snd].
    revert Hnd Hk. induction m as [|[k0 v0] m IH]; intros Hnd Hk.
    { by apply elem_of_nil in Hin. }
    rewrite fmap_cons in Hnd. apply NoDup_cons in Hnd as [Hk0 Hnd].
    apply Forall_cons in Hk as [Hkv Hk]. cbn [fst snd] in *. subst k0.
    unfold Map_get. cbn [find fst].
    apply elem_of_cons in Hin as [[= -> ->]|Hin].
    + by rewrite bool_decide_eq_true_2.
    + case_bool_decide as Hname.
      * exfalso. apply Hk0. rewrite Hname.
        pose proof (proj1 (Forall_forall _ _) Hk (k, v) Hin) as Hkv.
        cbn [fst snd] in Hkv. rewrite <- Hkv.
        by apply (list_elem_of_fmap_2 fst) in Hin.
      * by apply IH.
  - intros Hg. apply Map_get_elem in Hg.
    by apply (list_elem_of_fmap_2 snd) in Hg.
Qed.

(** The registry built from a list of skills, as a list of values. *)
Lemma registry_spec (skills : list SkillMetadata) :
  NoDup (name <$> Map_values (set_all skills []))
  /\ (forall skill,
        skill ∈ Map_values (set_all skills [])
        <-> latest_named (name skill) skills = Some skill).
Proof.
  destruct (set_all_invariants skills []) as [Hnd Hk];
    [constructor|constructor|].
  destruct (Map_values_spec _ Hnd Hk) as [Hnames Hin].
  split; [done|]. intros skill. rewrite Hin, set_all_get.
  by destruct (latest_named (name skill) skills).
Qed.

(** C10. When the current list is undefined or empty and the update is
    not empty, the reducer returns the update as it is, so two entries of
    the same name can stand in the result; an empty or undefined update
    gives back the current list as it is; only when both lists are
    non-empty are the entries merged by name, the later entry of the
    current list followed by the update winning. *)
Theorem skillsMetadataReducer_dedup_only_when_both :
  (forall u us,
      skillsMetadataReducer None (Some (u :: us)) = u :: us
      /\ skillsMetadataReducer (Some []) (Some (u :: us)) = u :: us)
  /\ (let one := mkSkill (lit "code-review") (lit "base") (lit "/a") None None None None in
      let two := mkSkill (lit "code-review") (lit "user") (lit "/b") None None None None in
      skillsMetadataReducer None (Some [one; two]) = [one; two]
      /\ ~ NoDup (name <$> skillsMetadataReducer None (Some [one; two])))
  /\ (forall current,
        skillsMetadataReducer (Some current) None = current
        /\ skillsMetadataReducer (Some current) (Some []) = current)
  /\ (forall c cs u us,
        let merged := skillsMetadataReducer (Some (c :: cs)) (Some (u :: us)) in
        NoDup (name <$> merged)
        /\ (forall skill,
              skill ∈ merged
              <-> latest_named (name skill) ((c :: cs) ++ (u :: us))
                  = Some skill)).
Proof.
  split; [done|]. split.
  { split; [done|]. simpl. intros Hnd.
    apply NoDup_cons in Hnd as [Hnin _]. apply Hnin. by left. }
  split; [done|].
  intros c cs u us merged. subst merged.
  change (skillsMetadataReducer (Some (c :: cs)) (Some (u :: us)))
    with (Map_values (set_all (u :: us) (set_all (c :: cs) []))).
  rewrite <- set_all_app. apply registry_spec.
Qed.


Section WithPlatform.
Context `{Platform}.

(** The loop of [beforeAgent] sets, source after source, what the
    sources list. *)
Lemma loadSources_listings (backend : BackendProtocol World)
    (sources : list str) (m : list (str * SkillMetadata)) (s : Sys World) :
  loadSources backend sources m s
  = (Ok (set_all (concat (listings backend sources s).1) m),
     (listings backend sources s).2).
Proof.
  revert m s. induction sources as [|sourcePath rest IH]; intros m s.
  - done.
  - cbn [loadSources listings]. unfold bind at 1, try_catch, bind.
    destruct (listSkillsFromBackend backend sourcePath s)
      as [[skills|e] s1].
    + unfold ret. cbn beta iota. rewrite IH.
      destruct (listings backend rest s1) as [ls s'].
      simpl. by rewrite set_all_app.
    + unfold console_debug, ret. cbn beta iota. rewrite IH.
      by destruct (listings backend rest _) as [ls s'].
Qed.


End WithPlatform.


End SkillsProofs.

(** ** More on the files reducer: how updates compose *)
Module ReducerAlgebra.
Import JS Eff Types Fs.






End ReducerAlgebra.

(** ** Validation of skill names *)
Module SkillNameProofs.
Import JS JSFacts SkillNames.

Lemma nullable_match (r : regex) : nullable r = true -> re_match r [].
Proof.
  induction r; simpl; try done.
  - constructor.
  - intros [H1 H2]%andb_prop. apply (match_seq _ _ [] []); auto.
  - intros [H1|H2]%orb_prop; [apply match_alt_l|apply match_alt_r]; auto.
  - constructor.
Qed.

Lemma match_nullable (r : regex) (s : str) :
  re_match r s -> s = [] -> nullable r = true.
Proof.
  induction 1 as [|p c Hp|r1 r2 s1 s2 _ IH1 _ IH2|r1 r2 s _ IH|r1 r2 s _ IH
                  |r|r s1 s2 _ _ _ _]; intros Hs; simpl; try done.
  - apply app_eq_nil in Hs as [-> ->]. by rewrite IH1, IH2.
  - by rewrite IH.
  - rewrite IH by done. apply orb_true_r.
Qed.

Ltac invert_match :=
  match goal with
  | H : re_match Void _ |- _ => inversion H
  | H : re_match Eps _ |- _ => inversion H; subst; clear H
  | H : re_match (Class _) _ |- _ => inversion H; subst; clear H
  | H : re_match (Seq _ _) _ |- _ => inversion H; subst; clear H
  | H : re_match (Alt _ _) _ |- _ => inversion H; subst; clear H
  end.

Lemma match_seq_cons (r1 r2 : regex) (c : ascii) (s1 s2 : str) :
  re_match r1 (c :: s1) -> re_match r2 s2 ->
  re_match (Seq r1 r2) (c :: s1 ++ s2).
Proof. intros H1 H2. by apply (match_seq r1 r2 (c :: s1) s2). Qed.

Lemma match_star_cons_char (r : regex) (c : ascii) (s1 s2 : str) :
  re_match r (c :: s1) -> re_match (Star r) s2 ->
  re_match (Star r) (c :: s1 ++ s2).
Proof. intros H1 H2. by apply (match_star_cons r (c :: s1) s2). Qed.

Lemma deriv_sound (c : ascii) (r : regex) (s : str) :
  re_match (deriv c r) s -> re_match r (c :: s).
Proof.
  revert s. induction r as [| |p|r1 IH1 r2 IH2|r1 IH1 r2 IH2|r IH];
    intros s; simpl; intros Hm.
  - invert_match.
  - invert_match.
  - destruct (p c) eqn:Hp; invert_match. by constructor.
  - destruct (nullable r1) eqn:Hn.
    + invert_match.
      * invert_match. apply match_seq_cons; auto.
      * apply (match_seq _ _ [] (c :: s)); [by apply nullable_match|auto].
    + invert_match. apply match_seq_cons; auto.
  - invert_match; [apply match_alt_l|apply match_alt_r]; auto.
  - invert_match. apply match_star_cons_char; auto.
Qed.

Lemma deriv_complete (c : ascii) (r : regex) (s0 : str) :
  re_match r s0 -> forall s, s0 = c :: s -> re_match (deriv c r) s.
Proof.
  induction 1 as [|p c0 Hp|r1 r2 s1 s2 H1 IH1 H2 IH2|r1 r2 s0 _ IH
                  |r1 r2 s0 _ IH|r|r s1 s2 H1 IH1 H2 IH2];
    intros s Hs; simpl; try done.
  - injection Hs as -> <-. rewrite Hp. constructor.
  - destruct s1 as [|c1 s1].
    + simpl in Hs. subst s2.
      rewrite (match_nullable r1 [] H1 eq_refl).
      apply match_alt_r. by apply IH2.
    + injection Hs as -> <-.
      assert (re_match (Seq (deriv c r1) r2) (s1 ++ s2))
        by (constructor; auto).
      destruct (nullable r1); [by apply match_alt_l|done].
  - apply match_alt_l. by apply IH.
  - apply match_alt_r. by apply IH.
  - destruct s1 as [|c1 s1].
    + simpl in Hs. by apply IH2.
    + injection Hs as -> <-. constructor; auto.
Qed.

(** The matcher decides membership. *)
Lemma test_spec (r : regex) (s : str) : test r s = true <-> re_match r s.
Proof.
  revert r. induction s as [|c s IH]; intros r; simpl.
  - split; [apply nullable_match|intros Hm; by eapply match_nullable].
  - rewrite IH. split; [apply deriv_sound|].
    intros Hm. by eapply deriv_complete.
Qed.

Lemma star_class (p : ascii -> bool) (s : str) :
  re_match (Star (Class p)) s <-> Forall (fun c => p c = true) s.
Proof.
  split.
  - intros Hm. remember (Star (Class p)) as r eqn:Hr.
    induction Hm as [| | | | | |r0 s1 s2 H1 _ H2 IH2]; try discriminate.
    + constructor.
    + injection Hr as ->. inversion H1; subst. constructor; auto.
  - induction 1 as [|c s Hc _ IH]; [constructor|].
    apply (match_star_cons _ [c] s); [by constructor|done].
Qed.

Lemma plus_class (p : ascii -> bool) (s : str) :
  re_match (Plus (Class p)) s
  <-> s <> [] /\ Forall (fun c => p c = true) s.
Proof.
  unfold Plus. split.
  - intros Hm. invert_match. invert_match.
    match goal with H : re_match (Star _) _ |- _ => apply star_class in H end.
    split; [done|]. by constructor.
  - intros [Hne Hall]. destruct Hall as [|c s Hc Hall]; [done|].
    apply (match_seq _ _ [c] s); [by constructor|by apply star_class].
Qed.

(** The repeated part of the name pattern: hyphen-led segments. *)
Lemma star_segments (s : str) :
  re_match (Star (Seq (Class (fun c => bool_decide (c = hyphen)))
                    (Plus (Class lower_alnum)))) s
  <-> exists segs,
        Forall segment segs /\ s = concat (map (cons hyphen) segs).
Proof.
  split.
  - intros Hm.
    remember (Star (Seq (Class (fun c => bool_decide (c = hyphen)))
                      (Plus (Class lower_alnum)))) as r eqn:Hr.
    induction Hm as [| | | | | |r0 s1 s2 H1 _ H2 IH2]; try discriminate.
    + by exists [].
    + injection Hr as ->. destruct (IH2 eq_refl) as (segs & Hsegs & ->).
      invert_match. invert_match.
      match goal with
      | Hc : bool_decide (_ = hyphen) = true |- _ =>
          apply bool_decide_eq_true in Hc; subst
      end.
      match goal with
      | Hp : re_match (Plus _) ?t |- _ =>
          apply plus_class in Hp; exists (t :: segs)
      end.
      split; [by constructor|done].
  - intros (segs & Hsegs & ->).
    induction Hsegs as [|seg segs Hseg _ IH]; [constructor|].
    simpl. apply (match_star_cons _ (hyphen :: seg)); [|done].
    apply (match_seq _ _ [hyphen] seg).
    + constructor. by apply bool_decide_eq_true.
    + by apply plus_class.
Qed.

Lemma join_cons_concat (c : ascii) (x : str) (segs : list str) :
  join [c] (x :: segs) = x ++ concat (map (cons c) segs).
Proof.
  revert x. induction segs as [|y segs IH]; intros x.
  - simpl. by rewrite app_nil_r.
  - change (join [c] (x :: y :: segs)) with (x ++ c :: join [c] (y :: segs)).
    by rewrite IH.
Qed.

(** The name pattern stands for the hyphen-joined segments. *)
Lemma name_pattern_match (s : str) :
  re_match name_pattern s
  <-> exists segs,
        segs <> [] /\ Forall segment segs /\ s = join [hyphen] segs.
Proof.
  unfold name_pattern. split.
  - intros Hm. invert_match.
    match goal with
    | H2 : re_match (Star _) _ |- _ =>
        apply star_segments in H2 as (segs & Hsegs & ->)
    end.
    match goal with
    | H1 : re_match (Plus _) ?s1 |- _ =>
        apply plus_class in H1; exists (s1 :: segs)
    end.
    split; [done|]. split; [by constructor|].
    by rewrite join_cons_concat.
  - intros (segs & Hne & Hsegs & ->).
    destruct Hsegs as [|seg segs Hseg Hsegs]; [done|].
    rewrite join_cons_concat. constructor.
    + by apply plus_class.
    + apply star_segments. by exists segs.
Qed.

Lemma segment_no_hyphen (seg : str) :
  segment seg -> Forall (fun c => bool_decide (c = hyphen) = false) seg.
Proof.
  intros [_ Hall]. eapply Forall_impl; [exact Hall|].
  intros c Hc. apply bool_decide_eq_false. by intros ->.
Qed.

(** Splitting at the hyphens gives the segments back. *)
Lemma split_join_segments (segs : list str) :
  segs <> [] -> Forall segment segs ->
  split hyphen (join [hyphen] segs) = segs.
Proof.
  intros Hne Hall. induction Hall as [|seg segs Hseg Hall IH]; [done|].
  destruct segs as [|seg' segs].
  - simpl. by apply split_by_single, segment_no_hyphen.
  - change (join [hyphen] (seg :: seg' :: segs))
      with (seg ++ hyphen :: join [hyphen] (seg' :: segs)).
    unfold split.
    rewrite split_by_app_sep;
      [|by apply segment_no_hyphen|by apply bool_decide_eq_true].
    f_equal. by apply IH.
Qed.

Lemma join_split_at (c : ascii) (s : str) : join [c] (split c s) = s.
Proof.
  unfold split. induction s as [|a r IH]; simpl; [done|].
  pose proof (split_by_nonempty (fun x => bool_decide (x = c)) r) as Hne.
  destruct (split_by _ r) as [|h t] eqn:Hr; [done|].
  case_bool_decide as Ha.
  - subst a. simpl in *. by rewrite IH.
  - destruct t; simpl in *; by rewrite <- IH.
Qed.

(** The pattern accepts a name exactly when every piece between its
    hyphens is a segment. *)
Lemma name_pattern_test (s : str) :
  test name_pattern s = true <-> Forall segment (split hyphen s).
Proof.
  rewrite test_spec, name_pattern_match. split.
  - intros (segs & Hne & Hsegs & ->). by rewrite split_join_segments.
  - intros Hall. exists (split hyphen s).
    split; [apply split_by_nonempty|]. split; [done|].
    by rewrite join_split_at.
Qed.

(** A skill name is reported valid exactly when it has at most 64
    characters, consists of one or more segments of lowercase letters and
    digits separated by single hyphens (so it is not empty and neither
    starts nor ends with a hyphen), and equals the name of its directory;
    and exactly then the error text is empty. *)
Theorem validateSkillName_valid (name directoryName : str) :
  (fst (validateSkillName name directoryName) = true
   <-> (strlen name <= MAX_SKILL_NAME_LENGTH)%Z
       /\ Forall segment (split hyphen name)
       /\ name = directoryName)
  /\ (snd (validateSkillName name directoryName) = []
      <-> fst (validateSkillName name directoryName) = true).
Proof.
  unfold validateSkillName.
  destruct name as [|c name].
  { simpl. split; [|done]. split; [done|].
    intros (_ & Hseg & _). simpl in Hseg.
    apply Forall_cons in Hseg as [[Hne _] _]. done. }
  cbn [truthy negb].
  destruct (MAX_SKILL_NAME_LENGTH <? strlen (c :: name))%Z eqn:Hlen.
  { simpl. split; [|done]. split; [done|]. lia. }
  destruct (test name_pattern (c :: name)) eqn:Htest; cbn [negb].
  - apply name_pattern_test in Htest.
    case_bool_decide as Hdir; cbn [negb fst snd].
    + repeat split; auto. lia.
    + split; [|done]. split; [done|]. by intros (_ & _ & ?).
  - cbn [fst snd]. split; [|done]. split; [done|].
    intros (_ & Hseg & _). apply name_pattern_test in Hseg. congruence.
Qed.

End SkillNameProofs.

(** ** The preview for any head and tail *)
Module PreviewShape.
Import JS JSFacts Eff Types Fs.
Local Open Scope Z_scope.

Lemma slice_from_start {A} (l : list A) : slice (- 0) None l = l.
Proof.
  unfold slice, rel_index. simpl.
  rewrite Z.min_l by lia. simpl. rewrite drop_0, Z.sub_0_r, Nat2Z.id.
  by apply take_ge.
Qed.

Section WithPlatform.
Context `{Platform}.

(** The preview of a text longer than head and tail together, as a join of
    output lines; [tailLines] is the list the code takes for the tail. *)
Lemma createContentPreview_join (contentStr : str) (h t : Z)
    (tailLines : list str) :
  let lines := split nl contentStr in
  let total := Z.of_nat (length lines) in
  1 <= h -> h + t < total ->
  slice (- t) None lines = tailLines -> tailLines <> [] ->
  createContentPreview contentStr h t
  = join [nl]
      (imap (fun i line =>
               lineNumberPrefix (1 + Z.of_nat i) ++ take 1000 line)
         (take (Z.to_nat h) lines)
       ++ [lit "... [" ++ Number_toString (total - h - t)
             ++ lit " lines truncated] ..."]
       ++ imap (fun i line =>
                  lineNumberPrefix (total - t + 1 + Z.of_nat i)
                    ++ take 1000 line)
            tailLines).
Proof.
  intros lines total Hh Htotal Htail Hne.
  assert (1 <= total) as Hlines.
  { pose proof (split_by_nonempty (fun c => bool_decide (c = nl)) contentStr).
    unfold total, lines, split. destruct (split_by _ contentStr); [done|].
    simpl. lia. }
  unfold createContentPreview.
  fold lines. fold total.
  replace (total <=? h + t) with false by lia.
  rewrite slice_head, Htail by lia.
  rewrite !PreviewProofs.format_capped.
  rewrite join_app;
    [|apply PreviewProofs.imap_nonempty, PreviewProofs.nonempty_of_length;
      rewrite length_take; unfold total in Hlines; lia
     |done].
  rewrite (join_app _ [_]); [|done|by apply PreviewProofs.imap_nonempty].
  simpl. by rewrite <- !app_assoc.
Qed.

(** For any head of at least one line and any tail of at least one line, a
    text with more lines than head and tail together is previewed on
    exactly head + tail + 1 lines: the first [h] lines, the marker with the
    count of the lines left out, and the last [t] lines numbered from
    total - t + 1. *)
Theorem createContentPreview_head_tail (contentStr : str) (h t : Z) :
  (forall n, no_nl (lineNumberPrefix n)) ->
  1 <= h -> 1 <= t ->
  let lines := split nl contentStr in
  let total := Z.of_nat (length lines) in
  h + t < total ->
  let numbered (start : Z) (ls : list str) :=
    imap (fun i line =>
            lineNumberPrefix (start + Z.of_nat i) ++ take 1000 line) ls in
  let out := split nl (createContentPreview contentStr h t) in
  out = numbered 1 (take (Z.to_nat h) lines)
        ++ [lit "... [" ++ Number_toString (total - h - t)
              ++ lit " lines truncated] ..."]
        ++ numbered (total - t + 1) (drop (length lines - Z.to_nat t) lines)
  /\ Z.of_nat (length out) = h + t + 1.
Proof.
  intros Hp Hh Ht lines total Htotal numbered out.
  pose proof (split_pieces contentStr) as Hlines. fold lines in Hlines.
  assert (out = numbered 1 (take (Z.to_nat h) lines)
                ++ [lit "... [" ++ Number_toString (total - h - t)
                      ++ lit " lines truncated] ..."]
                ++ numbered (total - t + 1)
                     (drop (length lines - Z.to_nat t) lines)) as Hout.
  { subst out.
    rewrite (createContentPreview_join contentStr h t
               (drop (length lines - Z.to_nat t) lines)); try done.
    - apply split_join.
      + intros [Hnil _]%app_eq_nil. revert Hnil.
        apply PreviewProofs.imap_nonempty, PreviewProofs.nonempty_of_length.
        rewrite length_take. unfold total in Htotal. fold lines. lia.
      + apply Forall_app_2; [|apply Forall_app_2].
        * apply PreviewProofs.numbered_no_nl; [done|by apply Forall_take].
        * constructor; [|done]. apply PreviewProofs.marker_no_nl.
        * apply PreviewProofs.numbered_no_nl; [done|by apply Forall_drop].
    - apply slice_tail. fold lines. unfold total in Htotal. lia.
    - apply PreviewProofs.nonempty_of_length. rewrite length_drop.
      unfold total in Htotal. fold lines. lia. }
  split; [done|].
  rewrite Hout. subst numbered. cbn beta.
  rewrite !length_app, !length_imap, length_take, length_drop.
  cbn [length]. unfold total in Htotal. lia.
Qed.

(** With a tail of zero lines the tail is not empty: [slice(-0)] is the
    whole array, so after the head and the marker every line of the text is
    shown again, numbered from total + 1; the preview then has more lines
    than the text. *)
Theorem createContentPreview_zero_tail (contentStr : str) (h : Z) :
  (forall n, no_nl (lineNumberPrefix n)) ->
  1 <= h ->
  let lines := split nl contentStr in
  let total := Z.of_nat (length lines) in
  h < total ->
  let numbered (start : Z) (ls : list str) :=
    imap (fun i line =>
            lineNumberPrefix (start + Z.of_nat i) ++ take 1000 line) ls in
  let out := split nl (createContentPreview contentStr h 0) in
  out = numbered 1 (take (Z.to_nat h) lines)
        ++ [lit "... [" ++ Number_toString (total - h)
              ++ lit " lines truncated] ..."]
        ++ numbered (total + 1) lines
  /\ Z.of_nat (length out) = h + 1 + total.
Proof.
  intros Hp Hh lines total Htotal numbered out.
  pose proof (split_pieces contentStr) as Hlines. fold lines in Hlines.
  assert (lines <> []) as Hne by apply split_by_nonempty.
  assert (out = numbered 1 (take (Z.to_nat h) lines)
                ++ [lit "... [" ++ Number_toString (total - h)
                      ++ lit " lines truncated] ..."]
                ++ numbered (total + 1) lines) as Hout.
  { subst out.
    rewrite (createContentPreview_join contentStr h 0 lines);
      [|done|fold lines total; lia|apply slice_from_start|done].
    fold lines. fold total.
    replace (total - h - 0) with (total - h) by lia.
    replace (total - 0 + 1) with (total + 1) by lia.
    apply split_join.
    - intros [Hnil _]%app_eq_nil. revert Hnil.
      apply PreviewProofs.imap_nonempty, PreviewProofs.nonempty_of_length.
      rewrite length_take. unfold total in Htotal. lia.
    - apply Forall_app_2; [|apply Forall_app_2].
      + apply PreviewProofs.numbered_no_nl; [done|by apply Forall_take].
      + constructor; [|done]. apply PreviewProofs.marker_no_nl.
      + by apply PreviewProofs.numbered_no_nl. }
  split; [done|].
  rewrite Hout. subst numbered. cbn beta.
  rewrite !length_app, !length_imap, length_take.
  cbn [length]. unfold total in *. lia.
Qed.

End WithPlatform.

(** Seven rows with a head of two and a tail of one: four output lines,
    the last being row seven. *)
Lemma createContentPreview_head_tail_witness :
  let out :=
    split nl
      (createContentPreview (H := Sample.platform)
         (Sample.lines_of 7 (lit "row")) 2 1) in
  length out = 4%nat
  /\ out !! 2%nat = Some (lit "... [4 lines truncated] ...")
  /\ out !! 3%nat = Some (lit "     7" ++ [Sample.tab] ++ lit "row").
Proof.
  destruct (createContentPreview_head_tail (H := Sample.platform)
              (Sample.lines_of 7 (lit "row")) 2 1
              SampleFacts.line_prefix_no_nl) as [Hout Hlen];
    [lia|lia|by vm_compute|].
  cbv zeta in Hout, Hlen |- *. split; [lia|]. rewrite Hout. by vm_compute.
Defined.

(** Three rows with a head of one and a tail of zero: the head, the marker
    and then all three rows again, numbered 4 to 6. *)
Lemma createContentPreview_zero_tail_witness :
  let out :=
    split nl
      (createContentPreview (H := Sample.platform)
         (Sample.lines_of 3 (lit "row")) 1 0) in
  length out = 5%nat
  /\ out !! 1%nat = Some (lit "... [2 lines truncated] ...")
  /\ out !! 4%nat = Some (lit "     6" ++ [Sample.tab] ++ lit "row").
Proof.
  destruct (createContentPreview_zero_tail (H := Sample.platform)
              (Sample.lines_of 3 (lit "row")) 1
              SampleFacts.line_prefix_no_nl) as [Hout Hlen];
    [lia|by vm_compute|].
  cbv zeta in Hout, Hlen |- *. split; [|rewrite Hout; by vm_compute].
  apply Nat2Z.inj. rewrite Hlen. by vm_compute.
Defined.

End PreviewShape.

(** ** What the eviction wrapper leaves alone, and what a batch becomes *)
Module EvictionFrame.
Import JS JSFacts Eff Types Fs FsViews.
Local Open Scope Z_scope.

Section WithPlatform.
Context `{Platform}.

(** The loop passes over messages within the threshold without a write. *)
Lemma processMessages_within (backend : BackendOrFactory World Store)
    (request : ToolCallRequest) (limit : Z) (before rest : list BaseMessage)
    (flag : bool) (acc : FilesRecordUpdate) (sofar : list BaseMessage)
    (s : Sys World) :
  Forall (message_within limit) before ->
  processMessages backend request limit (before ++ rest) flag acc sofar s
  = processMessages backend request limit rest flag acc (sofar ++ before) s.
Proof.
  intros Hall. revert sofar.
  induction Hall as [|m before Hm _ IH]; intros sofar.
  - by rewrite app_nil_r.
  - change ((m :: before) ++ rest) with (m :: (before ++ rest)).
    destruct m as [msg|text].
    + rewrite (EvictionProofs.processMessages_step _ _ _ _ _ _ _ _ s s
                 (mkProcessed msg None))
        by by apply EvictionProofs.processToolMessage_small.
      cbn [processed_filesUpdate message]. rewrite IH.
      by rewrite <- app_assoc.
    + cbn [processMessages]. rewrite IH. by rewrite <- app_assoc.
Qed.

(** A result with no message above the threshold goes through the wrapper
    as the handler gave it, whatever the options and the tool, and nothing
    is written: the state is the one the handler left. *)
Theorem wrapToolCall_within_threshold (backend : BackendOrFactory World Store)
    (tokenLimit : option Z) (request : ToolCallRequest)
    (handler : ToolHandler) (result : ToolResult) (s0 s : Sys World) :
  handler request s0 = (Ok result, s) ->
  (forall limit, truthy_limit tokenLimit = Some limit ->
                 result_within limit result) ->
  wrapToolCall backend tokenLimit request handler s0 = (Ok result, s).
Proof.
  intros Hh Hwithin. unfold wrapToolCall.
  destruct (truthy_limit tokenLimit) as [limit|]; [|done].
  specialize (Hwithin limit eq_refl).
  destruct (match toolCall request ≫= tc_name with
            | Some toolName => _
            | None => false
            end); [done|].
  unfold bind at 1. rewrite Hh.
  destruct result as [msg|cmd]; simpl in Hwithin.
  - unfold bind.
    by rewrite EvictionProofs.processToolMessage_small.
  - destruct (update cmd) as [u|]; [|done]. simpl in Hwithin.
    destruct (upd_messages u) as [messages|]; [|done].
    unfold bind.
    rewrite <- (app_nil_r messages), processMessages_within by done.
    done.
Qed.

(** What [processToolMessage] resolves to answers the same tool call. *)
Lemma processToolMessage_same_call (backend : BackendOrFactory World Store)
    (request : ToolCallRequest) (limit : Z) (msg : ToolMessage)
    (s s' : Sys World) (processed : Processed) :
  processToolMessage backend request msg limit s = (Ok processed, s') ->
  processed_from request limit (IsToolMessage msg)
    (IsToolMessage (message processed)).
Proof.
  unfold processToolMessage, processed_from.
  destruct (msg_content msg) as [content|blocks] eqn:Hc.
  - destruct (strlen content >? limit * NUM_CHARS_PER_TOKEN) eqn:Hlen.
    + unfold bind, await.
      destruct (write _ _ content (world s)) as [[wr|e] w2]; [|done].
      destruct (truthy_opt (error wr)).
      * intros [= <- _]. exists msg. eauto.
      * intros [= <- _]. eexists. split; [done|].
        split; [done|]. split; [done|]. right.
        exists content. split; [done|]. split; [lia|done].
    + intros [= <- _]. exists msg. eauto.
  - intros [= <- _]. exists msg. eauto.
Qed.

(** Whatever a batch holds, the loop gives back as many messages, in the
    same order: a message that is not a tool message is untouched, a tool
    message is either untouched or replaced by its notice, which carries
    the same tool-call id and the same name. *)
Theorem processMessages_shape (backend : BackendOrFactory World Store)
    (request : ToolCallRequest) (limit : Z) (messages : list BaseMessage)
    (flag : bool) (acc : FilesRecordUpdate) (sofar : list BaseMessage)
    (s : Sys World) (flag' : bool) (acc' : FilesRecordUpdate)
    (out : list BaseMessage) (s' : Sys World) :
  processMessages backend request limit messages flag acc sofar s
  = (Ok (flag', acc', out), s') ->
  exists processed,
    out = sofar ++ processed
    /\ length processed = length messages
    /\ Forall2 (processed_from request limit) messages processed.
Proof.
  revert flag acc sofar s.
  induction messages as [|[msg|text] rest IH]; intros flag acc sofar s.
  - simpl. intros [= <- <- <- <-]. exists []. by rewrite app_nil_r.
  - cbn [processMessages]. unfold bind at 1.
    destruct (processToolMessage backend request msg limit s)
      as [[p|e] s1] eqn:Hp; [|done].
    apply processToolMessage_same_call in Hp.
    intros Hrest.
    assert (exists processed,
               out = (sofar ++ [IsToolMessage (message p)]) ++ processed
               /\ length processed = length rest
               /\ Forall2 (processed_from request limit) rest processed)
      as (processed & -> & Hlen & Hall)
      by (destruct (processed_filesUpdate p); by eapply IH).
    exists (IsToolMessage (message p) :: processed).
    rewrite <- app_assoc. split; [done|]. split; [simpl; lia|].
    by constructor.
  - cbn [processMessages]. intros Hrest.
    apply IH in Hrest as (processed & -> & Hlen & Hall).
    exists (OtherMessage text :: processed).
    rewrite <- app_assoc. split; [done|]. split; [simpl; lia|].
    by constructor.
Qed.

(** In a batch, a text above the threshold whose write reports neither an
    error nor a files update (a backend that keeps its files outside the
    state) is written to the derived path, yet the wrapper gives back the
    handler's command as it was, the oversized message still in it, when
    no other message of the batch was relocated. *)
Theorem batch_without_files_update_keeps_command
    (backend : BackendOrFactory World Store) (limit : Z)
    (request : ToolCallRequest) (handler : ToolHandler)
    (cmd : Command) (u : CommandUpdate) (before after : list BaseMessage)
    (msg : ToolMessage) (content : str) (s0 s : Sys World)
    (wr : WriteResult) (w2 : World) :
  limit <> 0 ->
  excluded_from_eviction request = false ->
  handler request s0 = (Ok (ResultCommand cmd), s) ->
  update cmd = Some u ->
  upd_messages u = Some (before ++ IsToolMessage msg :: after) ->
  Forall (message_within limit) before ->
  Forall (message_within limit) after ->
  msg_content msg = ContentText content ->
  limit * NUM_CHARS_PER_TOKEN < strlen content ->
  write (evictionBackend backend request) (evictPathOf request msg)
    content (world s) = (Ok wr, w2) ->
  truthy_opt (error wr) = false ->
  filesUpdate wr = None ->
  wrapToolCall backend (Some limit) request handler s0
  = (Ok (ResultCommand cmd), mkSys w2 (console s)).
Proof.
  intros Hl Hex Hh Hu Hm Hbefore Hafter Hc Hlen Hw Herr Hfu.
  rewrite (EvictionProofs.wrapToolCall_command _ _ _ _ cmd u _ s0 s)
    by done.
  rewrite processMessages_within by done.
  pose proof (EvictionProofs.processToolMessage_large backend request limit
                msg content s wr w2 Hc Hlen Hw) as Hp.
  rewrite Herr, Hfu in Hp.
  rewrite (EvictionProofs.processMessages_step _ _ _ _ _ _ _ _ _ _ _ Hp).
  cbn [processed_filesUpdate message].
  rewrite <- (app_nil_r after), processMessages_within by done.
  done.
Qed.

(** In a batch, once the write for a text above the threshold has reported
    a files update, the wrapper gives back a new command built from the
    update alone: its messages and files are those of the loop, the other
    keys of the update are kept, and the [goto] of the handler's command
    is not. *)
Theorem batch_relocation_rebuilds_command
    (backend : BackendOrFactory World Store) (limit : Z)
    (request : ToolCallRequest) (handler : ToolHandler)
    (cmd : Command) (u : CommandUpdate) (before after : list BaseMessage)
    (msg : ToolMessage) (content : str) (s0 s : Sys World)
    (wr : WriteResult) (w2 : World) (fu : FilesRecordUpdate)
    (flag : bool) (acc : FilesRecordUpdate) (out : list BaseMessage)
    (s' : Sys World) :
  limit <> 0 ->
  excluded_from_eviction request = false ->
  handler request s0 = (Ok (ResultCommand cmd), s) ->
  update cmd = Some u ->
  upd_messages u = Some (before ++ IsToolMessage msg :: after) ->
  Forall (message_within limit) before ->
  msg_content msg = ContentText content ->
  limit * NUM_CHARS_PER_TOKEN < strlen content ->
  write (evictionBackend backend request) (evictPathOf request msg)
    content (world s) = (Ok wr, w2) ->
  truthy_opt (error wr) = false ->
  filesUpdate wr = Some fu ->
  processMessages backend request limit after true
    (fu ∪ default ∅ (upd_files u))
    (before ++ [IsToolMessage (truncatedMessageOf request msg content)])
    (mkSys w2 (console s))
  = (Ok (flag, acc, out), s') ->
  wrapToolCall backend (Some limit) request handler s0
  = (Ok (ResultCommand
           (mkCommand
              (Some (mkUpdate (Some acc) (Some out) (upd_others u)))
              None)),
     s').
Proof.
  intros Hl Hex Hh Hu Hm Hbefore Hc Hlen Hw Herr Hfu Hrest.
  rewrite (EvictionProofs.wrapToolCall_command _ _ _ _ cmd u _ s0 s)
    by done.
  rewrite processMessages_within by done.
  pose proof (EvictionProofs.processToolMessage_large backend request limit
                msg content s wr w2 Hc Hlen Hw) as Hp.
  rewrite Herr, Hfu in Hp.
  rewrite (EvictionProofs.processMessages_step _ _ _ _ _ _ _ _ _ _ _ Hp).
  cbn [processed_filesUpdate message app]. rewrite Hrest.
  by rewrite (EvictionProofs.processMessages_flag _ _ _ _ _ _ _ _ _ _ _ Hrest).
Qed.

End WithPlatform.

(** A small answer to a search goes through untouched, on the disk
    backend with a threshold of 5 tokens. *)
Lemma wrapToolCall_within_threshold_witness :
  wrapToolCall (H := Sample.platform) Sample.on_disk (Some 5)
    Cases.search_request
    (Sample.answering (ResultMessage Cases.small)) Sample.start
  = (Ok (ResultMessage Cases.small), Sample.start).
Proof.
  apply (wrapToolCall_within_threshold (H := Sample.platform)).
  - reflexivity.
  - intros limit [= <-] content [= <-]. by vm_compute.
Defined.

(** The batch on the disk backend: the loop gives back three messages, the
    note first. *)
Lemma processMessages_shape_witness :
  exists notice,
    processMessages (H := Sample.platform) Sample.on_disk
      Cases.search_request 5
      [OtherMessage (lit "note"); IsToolMessage Cases.big;
       IsToolMessage Cases.small] false ∅ [] Sample.start
    = (Ok (false, ∅,
           [OtherMessage (lit "note"); IsToolMessage notice;
            IsToolMessage Cases.small]),
       mkSys [(lit "/large_tool_results/call_1", Sample.long_line 21)] [])
    /\ tool_call_id notice = lit "call_1".
Proof.
  eexists. split; [reflexivity|].
  destruct (processMessages_shape (H := Sample.platform) Sample.on_disk
              Cases.search_request 5
              [OtherMessage (lit "note"); IsToolMessage Cases.big;
               IsToolMessage Cases.small] false ∅ [] Sample.start
              false ∅ _ _ eq_refl) as (processed & Hout & _ & Hall).
  simpl in Hout. subst processed.
  apply Forall2_cons_1 in Hall as [_ Hall].
  apply Forall2_cons_1 in Hall as [(msg' & [= <-] & Hid & _) _].
  exact Hid.
Defined.

(** The batch on the disk backend, which reports no files update: the
    text is on the disk and the command comes back as the handler gave
    it. *)
Lemma batch_without_files_update_keeps_command_witness :
  wrapToolCall (H := Sample.platform) Sample.on_disk (Some 5)
    Cases.search_request
    (Sample.answering (ResultCommand Cases.batch)) Sample.start
  = (Ok (ResultCommand Cases.batch),
     mkSys [(lit "/large_tool_results/call_1", Sample.long_line 21)] []).
Proof.
  apply (batch_without_files_update_keeps_command (H := Sample.platform)
           Sample.on_disk 5 Cases.search_request _ Cases.batch
           (mkUpdate None
              (Some [OtherMessage (lit "note"); IsToolMessage Cases.big;
                     IsToolMessage Cases.small]) ∅)
           [OtherMessage (lit "note")] [IsToolMessage Cases.small]
           Cases.big (Sample.long_line 21) Sample.start Sample.start
           (mkWriteResult None None)).
  - done.
  - reflexivity.
  - reflexivity.
  - reflexivity.
  - reflexivity.
  - by repeat constructor.
  - repeat constructor. intros content [= <-]. by vm_compute.
  - reflexivity.
  - by vm_compute.
  - reflexivity.
  - reflexivity.
  - reflexivity.
Defined.

(** The batch on the in-state backend, which reports the new file: the
    command that comes back has lost the [goto]. *)
Lemma batch_relocation_rebuilds_command_witness :
  exists files messages,
    wrapToolCall (H := Sample.platform) Sample.on_state (Some 5)
      Cases.search_request
      (Sample.answering (ResultCommand Cases.batch)) Sample.start
    = (Ok (ResultCommand
             (mkCommand (Some (mkUpdate (Some files) (Some messages) ∅))
                None)),
       Sample.start)
    /\ goto Cases.batch = Some (lit "next").
Proof.
  eexists _, _. split; [|reflexivity].
  eapply (batch_relocation_rebuilds_command (H := Sample.platform)
           Sample.on_state 5 Cases.search_request _ Cases.batch
           (mkUpdate None
              (Some [OtherMessage (lit "note"); IsToolMessage Cases.big;
                     IsToolMessage Cases.small]) ∅)
           [OtherMessage (lit "note")] [IsToolMessage Cases.small]
           Cases.big (Sample.long_line 21) Sample.start Sample.start
           (mkWriteResult None
              (Some {[ lit "/large_tool_results/call_1" :=
                         Some (mkFileData [Sample.long_line 21] [] []) ]}))
           (world Sample.start)
           {[ lit "/large_tool_results/call_1" :=
                Some (mkFileData [Sample.long_line 21] [] []) ]}
           true).
  - done.
  - reflexivity.
  - reflexivity.
  - reflexivity.
  - reflexivity.
  - by repeat constructor.
  - reflexivity.
  - by vm_compute.
  - reflexivity.
  - reflexivity.
  - reflexivity.
  - reflexivity.
Defined.

End EvictionFrame.

(** ** The text of the notice, and the length of a capped read *)
Module NoticeShape.
Import JS JSFacts Eff Types Fs FsViews.
Local Open Scope Z_scope.

(** A search passes over text that cannot start the pattern. *)
Lemma find_first_skip (p0 : ascii) (ptl x s : str) :
  Forall (fun c => c <> p0) x ->
  find_first (p0 :: ptl) (x ++ s)
  = (fun '(pre, post) => (x ++ pre, post)) <$> find_first (p0 :: ptl) s.
Proof.
  induction 1 as [|c x Hc _ IH].
  - simpl. by destruct (find_first (p0 :: ptl) s) as [[pre post]|].
  - change ((c :: x) ++ s) with (c :: (x ++ s)).
    cbn [find_first strip_prefix]. rewrite decide_False by congruence.
    rewrite IH. by destruct (find_first (p0 :: ptl) s) as [[pre post]|].
Qed.

Lemma no_brace_literal (s : str) :
  forallb (fun c => negb (bool_decide (c = "{"%char))) s = true -> no_brace s.
Proof.
  intros Hs. apply Forall_forall. intros c Hc.
  rewrite forallb_forall in Hs. specialize (Hs c).
  rewrite <- list_elem_of_In in Hs. specialize (Hs Hc).
  apply negb_true_iff, bool_decide_eq_false in Hs. done.
Qed.

Section WithPlatform.
Context `{Platform}.

(** When the tool-call id and the path hold no opening brace and none of
    the three inserted texts holds a replacement pattern, the notice is the
    template with the id, the path and the preview in the places of the
    three placeholders, in this order: it names the call and the path and
    ends with the preview. *)
Theorem notice_names_call_and_path (request : ToolCallRequest)
    (msg : ToolMessage) (content : str) :
  no_brace (tool_call_id msg) ->
  no_brace (evictPathOf request msg) ->
  pattern_free (tool_call_id msg) = true ->
  pattern_free (evictPathOf request msg) = true ->
  pattern_free (createContentPreview_default content) = true ->
  exists head mid tail : str,
    TOO_LARGE_TOOL_MSG
    = head ++ lit "{tool_call_id}" ++ mid ++ lit "{file_path}" ++ tail
        ++ lit "{content_sample}"
    /\ replacementTextOf request msg content
       = head ++ tool_call_id msg ++ mid ++ evictPathOf request msg ++ tail
           ++ createContentPreview_default content.
Proof.
  intros Hid_b Hpath_b Hid Hpath Hprev.
  destruct (find_first (lit "{tool_call_id}") TOO_LARGE_TOOL_MSG)
    as [[A R1]|] eqn:H1; [|by vm_compute in H1].
  pose proof (find_first_spec _ _ _ _ H1) as HT.
  pose proof H1 as H1c. vm_compute in H1c. injection H1c as HA HR1.
  destruct (find_first (lit "{file_path}") R1) as [[B R2]|] eqn:H2;
    [|by rewrite <- HR1 in H2; vm_compute in H2].
  pose proof (find_first_spec _ _ _ _ H2) as HR1s.
  pose proof H2 as H2c. rewrite <- HR1 in H2c. vm_compute in H2c.
  injection H2c as HB HR2.
  destruct (find_first (lit "{content_sample}") R2) as [[C R3]|] eqn:H3;
    [|by rewrite <- HR2 in H3; vm_compute in H3].
  pose proof (find_first_spec _ _ _ _ H3) as HR2s.
  pose proof H3 as H3c. rewrite <- HR2 in H3c. vm_compute in H3c.
  injection H3c as HC HR3.
  assert (no_brace A) as HAb
    by (rewrite <- HA; by apply no_brace_literal).
  assert (no_brace B) as HBb
    by (rewrite <- HB; by apply no_brace_literal).
  assert (no_brace C) as HCb
    by (rewrite <- HC; by apply no_brace_literal).
  exists A, B, C. split.
  - rewrite HT, HR1s, HR2s, <- HR3. by rewrite app_nil_r.
  - unfold replacementTextOf.
    rewrite (replace_pattern_free _ _ _ A R1 H1 Hid).
    rewrite (replace_pattern_free _ _ (A ++ tool_call_id msg ++ R1)
               (A ++ tool_call_id msg ++ B) R2); [|..|done].
    + rewrite (replace_pattern_free _ _ _
                 (A ++ tool_call_id msg ++ B ++ evictPathOf request msg ++ C)
                 R3); [..|done].
      * rewrite <- HR3, app_nil_r. by rewrite <- !app_assoc.
      * replace ((A ++ tool_call_id msg ++ B) ++ evictPathOf request msg ++ R2)
          with ((A ++ tool_call_id msg ++ B ++ evictPathOf request msg) ++ R2)
          by (by rewrite <- !app_assoc).
        change (lit "{content_sample}")
          with ("{"%char :: lit "content_sample}").
        rewrite find_first_skip.
        -- change ("{"%char :: lit "content_sample}")
             with (lit "{content_sample}").
           rewrite H3. simpl. by rewrite <- !app_assoc.
        -- unfold no_brace in *.
           apply Forall_app_2; [done|].
           apply Forall_app_2; [done|]. by apply Forall_app_2.
    + rewrite (app_assoc A).
      change (lit "{file_path}") with ("{"%char :: lit "file_path}").
      rewrite find_first_skip.
      * change ("{"%char :: lit "file_path}") with (lit "{file_path}").
        rewrite H2. simpl. by rewrite <- !app_assoc.
      * unfold no_brace in *. by apply Forall_app_2.
Qed.

(** When the text after the line limit reaches the character cap and the
    notice fits under the cap, the returned text has exactly the cap's
    length; when the notice alone is longer than the cap, the returned text
    is the notice alone, above the cap. *)
Theorem charCapped_length (tokenLimit : option Z) (T : Z)
    (file_path windowed : str) :
  truthy_limit tokenLimit = Some T ->
  NUM_CHARS_PER_TOKEN * T <= strlen windowed ->
  let notice :=
    replace (lit "{file_path}") file_path READ_FILE_TRUNCATION_MSG in
  let returned := charCapped tokenLimit file_path windowed in
  (strlen notice <= NUM_CHARS_PER_TOKEN * T ->
   strlen returned = NUM_CHARS_PER_TOKEN * T)
  /\ (NUM_CHARS_PER_TOKEN * T < strlen notice -> returned = notice).
Proof.
  intros HT Hcap notice returned. subst returned. unfold charCapped.
  rewrite HT.
  replace (strlen windowed >=? NUM_CHARS_PER_TOKEN * T) with true by lia.
  fold notice. unfold substring0, strlen in *. split; intros Hn.
  - rewrite length_app, length_take. lia.
  - replace (Z.to_nat (NUM_CHARS_PER_TOKEN * T - Z.of_nat (length notice)))
      with 0%nat by lia.
    by rewrite take_0.
Qed.

End WithPlatform.

(** The notice for call [call_1] on the concrete platform. *)
Lemma notice_names_call_and_path_witness :
  exists head mid tail : str,
    replacementTextOf (H := Sample.platform) Cases.search_request Cases.big
      (Sample.long_line 21)
    = head ++ lit "call_1" ++ mid ++ lit "/large_tool_results/call_1" ++ tail
        ++ createContentPreview_default (H := Sample.platform)
             (Sample.long_line 21).
Proof.
  destruct (notice_names_call_and_path (H := Sample.platform)
              Cases.search_request Cases.big (Sample.long_line 21))
    as (head & mid & tail & _ & Hnotice).
  - by apply no_brace_literal.
  - by apply no_brace_literal.
  - reflexivity.
  - reflexivity.
  - by vm_compute.
  - exists head, mid, tail. exact Hnotice.
Defined.

(** A cap of 100 tokens and a text of 500 characters: 400 come back. *)
Lemma charCapped_length_witness :
  strlen (charCapped (Some 100) (lit "/f.txt") (Sample.long_line 500)) = 400.
Proof.
  destruct (charCapped_length (Some 100) 100 (lit "/f.txt")
              (Sample.long_line 500)) as [Hfits _].
  - reflexivity.
  - by vm_compute.
  - apply Hfits. by vm_compute.
Defined.

End NoticeShape.

(** ** What the memory hook loads, and how it is shown *)
Module MemoryContents.
Import JS JSFacts Eff Types Memory MemoryProofs MemoryPrompt.
Local Open Scope Z_scope.





(** When the formatted contents hold no replacement pattern, the system
    prompt the hook forwards is the opening tag, the formatted contents,
    the rest of the template, and then, after a blank line, the system
    prompt of the request if it has a non-empty one. Nothing else of the
    request is changed. *)
Theorem wrapModelCall_prompt {W Rest Response} (sources : list str)
    (request : ModelRequest Rest)
    (handler : ModelRequest Rest -> M W Response) :
  let formatted :=
    formatMemoryContents (default ∅ (mr_state request ≫= memoryContents))
      sources in
  let guidelines :=
    drop (length (lit "<agent_memory>" ++ [nl] ++ lit "{memory_contents}"))
      MEMORY_SYSTEM_PROMPT in
  pattern_free formatted = true ->
  wrapModelCall sources request handler
  = handler
      (mkModelRequest (mr_state request)
         (Some (lit "<agent_memory>" ++ [nl] ++ formatted ++ guidelines
                  ++ match mr_systemPrompt request with
                     | Some (c :: prompt) => [nl; nl] ++ c :: prompt
                     | _ => []
                     end))
         (mr_rest request)).
Proof.
  intros formatted guidelines Hfree. unfold wrapModelCall. f_equal. f_equal.
  f_equal. unfold memoryPrompt. fold formatted.
  rewrite (replace_pattern_free _ _ _ (lit "<agent_memory>" ++ [nl])
             guidelines); [|by vm_compute|done].
  destruct (mr_systemPrompt request) as [[|c prompt]|];
    cbn [or_else truthy]; rewrite <- ?app_assoc, ?app_nil_r; reflexivity.
Qed.

Section WithPlatform.
Context `{Platform}.

Lemma loadSources_invariant (P : str -> Prop)
    (backend : BackendProtocol World) (sources : list str) :
  (forall path s text s',
     loadMemoryFromBackend backend path s = (Ok (Some text), s') -> P text) ->
  forall contents s contents' s',
    loadSources backend sources contents s = (Ok contents', s') ->
    forall path text,
      contents' !! path = Some text ->
      contents !! path = Some text
      \/ (path ∈ sources /\ text <> [] /\ P text).
Proof.
  intros HP. induction sources as [|source rest IH];
    intros contents s contents' s' Hrun path text Htext.
  - injection Hrun as <- _. by left.
  - rewrite loadSources_step in Hrun.
    destruct (loadMemoryFromBackend backend source s)
      as [[[loaded|]|e] s1] eqn:Hload.
    + destruct (IH _ _ _ _ Hrun path text Htext)
        as [Hold|(Hin & Hne & Hp)].
      * destruct loaded as [|c loaded]; [by left|]. cbn [truthy] in Hold.
        destruct (decide (source = path)) as [->|Hneq].
        -- rewrite lookup_insert_eq in Hold. injection Hold as <-.
           right. split; [by left|]. split; [done|].
           by apply (HP _ _ _ _ Hload).
        -- rewrite lookup_insert_ne in Hold by done. by left.
      * right. split; [by right|done].
    + destruct (IH _ _ _ _ Hrun path text Htext)
        as [Hold|(Hin & Hne & Hp)]; [by left|].
      right. split; [by right|done].
    + destruct (IH _ _ _ _ Hrun path text Htext)
        as [Hold|(Hin & Hne & Hp)]; [by left|].
      right. split; [by right|done].
Qed.

(** When the hook returns contents, the state held none before, and every
    entry it returns sits under one of the configured sources and holds a
    non-empty text. *)
Theorem loaded_memory_is_from_sources (backend : BackendOrFactory World Store)
    (sources : list str) (state : AgentState) (s s' : Sys World)
    (loaded : gmap str str) :
  beforeAgent backend sources state s = (Ok (Some loaded), s') ->
  memoryContents state = None
  /\ forall path text,
       loaded !! path = Some text -> path ∈ sources /\ text <> [].
Proof.
  unfold beforeAgent. destruct (memoryContents state) as [held|]; [done|].
  intros Hrun. split; [done|]. unfold bind in Hrun.
  destruct (loadSources (getBackend backend state) sources ∅ s)
    as [[contents|e] s1] eqn:Hloop; [|done].
  injection Hrun as -> ->. intros path text Htext.
  destruct (loadSources_invariant (fun _ => True) _ sources
              (fun _ _ _ _ _ => I) _ _ _ _ Hloop path text Htext)
    as [Hold|(Hin & Hne & _)]; [by rewrite lookup_empty in Hold|done].
Qed.

(** On a backend without [downloadFiles] whose reads resolve, the loop
    resolves and writes nothing to the console, and no text it adds
    starts with [Error:]: a file with such a text is taken for a missing
    one. *)
Theorem read_fallback_is_silent (backend : BackendProtocol World)
    (sources : list str) (contents : gmap str str) (s : Sys World) :
  downloadFiles backend = None ->
  (forall path w, exists text w',
      read backend path None None w = (Ok text, w')) ->
  exists contents' s',
    loadSources backend sources contents s = (Ok contents', s')
    /\ console s' = console s
    /\ forall path text,
         contents' !! path = Some text ->
         contents !! path = Some text
         \/ (path ∈ sources /\ text <> []
             /\ startsWith (lit "Error:") text = false).
Proof.
  intros Hnone Hread.
  assert (forall path s0, exists r s1,
             loadMemoryFromBackend backend path s0 = (Ok r, s1)
             /\ console s1 = console s0
             /\ forall text, r = Some text ->
                  startsWith (lit "Error:") text = false) as Hload.
  { intros path s0. unfold loadMemoryFromBackend. rewrite Hnone.
    unfold bind, await.
    destruct (Hread path (world s0)) as (text & w' & ->).
    destruct (startsWith (lit "Error:") text) eqn:Hstarts.
    - eexists _, _. split; [done|]. split; [done|]. by intros t.
    - eexists _, _. split; [done|]. split; [done|].
      intros t. by intros [= <-]. }
  destruct (loadSources_resolves backend sources contents s)
    as (contents' & s' & Hrun).
  exists contents', s'. split; [done|]. split.
  - clear Hread. revert contents s Hrun.
    induction sources as [|source rest IH]; intros contents s Hrun.
    + by injection Hrun as _ <-.
    + rewrite loadSources_step in Hrun.
      destruct (Hload source s) as (r & s1 & Hr & Hconsole & _).
      rewrite Hr in Hrun. rewrite (IH _ _ Hrun). done.
  - refine (loadSources_invariant
              (fun text => startsWith (lit "Error:") text = false)
              backend sources _ _ _ _ _ Hrun).
    intros path s0 text s1 Hr.
    destruct (Hload path s0) as (r & s2 & Hr' & _ & Hstarts).
    rewrite Hr in Hr'. injection Hr' as <- _. by apply Hstarts.
Qed.

End WithPlatform.


(** A request with a system prompt and one loaded memory file. *)
Lemma wrapModelCall_prompt_witness :
  wrapModelCall (W := unit) [lit "/AGENTS.md"]
    (mkModelRequest
       (Some (mkState None (Some {[ lit "/AGENTS.md" := lit "Be brief." ]})
                None))
       (Some (lit "You are a helper.")) tt)
    (fun request => ret (mr_systemPrompt request))
  = ret (Some (lit "<agent_memory>" ++ [nl] ++ lit "/AGENTS.md" ++ [nl]
                 ++ lit "Be brief."
                 ++ drop 32 MEMORY_SYSTEM_PROMPT
                 ++ [nl; nl] ++ lit "You are a helper.")).
Proof.
  rewrite wrapModelCall_prompt; [|reflexivity]. reflexivity.
Defined.

(** One file on the disk, one source missing. *)
Lemma loaded_memory_is_from_sources_witness :
  memoryContents empty_state = None
  /\ forall path text,
       ({[ lit "/f.txt" := lit "Be brief." ]} : gmap str str) !! path
       = Some text ->
       path ∈ [lit "/f.txt"; lit "/missing.md"] /\ text <> [].
Proof.
  apply (loaded_memory_is_from_sources (H := Sample.platform) Sample.on_disk
           [lit "/f.txt"; lit "/missing.md"] empty_state
           (Sample.with_file (lit "Be brief."))
           (Sample.with_file (lit "Be brief."))).
  reflexivity.
Defined.

(** The backend that keeps its files in the state has no [downloadFiles]:
    a file whose text starts with [Error:] is not loaded. *)
Lemma read_fallback_is_silent_witness :
  exists contents' s',
    loadSources (H := Sample.platform) Sample.in_state [lit "/f.txt"] ∅
      (Sample.with_file (lit "Error: none so far"))
    = (Ok contents', s')
    /\ console s' = []
    /\ contents' !! lit "/f.txt" = None.
Proof.
  destruct (read_fallback_is_silent (H := Sample.platform) Sample.in_state
              [lit "/f.txt"] ∅ (Sample.with_file (lit "Error: none so far")))
    as (contents' & s' & Hrun & Hconsole & Hadded).
  - reflexivity.
  - intros path w. by eexists _, _.
  - exists contents', s'. split; [exact Hrun|]. split; [exact Hconsole|].
    injection Hrun as <- _. reflexivity.
Defined.

End MemoryContents.

(** ** The text of the ls and grep tools *)
Module ToolOutput.
Import JS JSFacts Eff Types Fs FsTools.
Local Open Scope Z_scope.

Lemma lsLine_no_nl (info : FileEntry) :
  no_nl (entry_path info) -> no_nl (lsLine info).
Proof.
  intros Hpath. unfold lsLine.
  destruct (default false (entry_is_dir info)).
  - apply no_nl_app; [done|]. by repeat constructor.
  - destruct (entry_size info) as [n|]; [|by rewrite app_nil_r].
    destruct (n =? 0); [by rewrite app_nil_r|].
    apply no_nl_app; [done|].
    apply no_nl_app; [by repeat constructor|].
    apply no_nl_app; [apply Number_toString_no_nl|by repeat constructor].
Qed.

Lemma lsLine_prefix (info : FileEntry) :
  entry_path info `prefix_of` lsLine info.
Proof.
  unfold lsLine. destruct (default false (entry_is_dir info));
    by eexists.
Qed.

(** A run of matches of the file whose header was pushed last adds the
    lines of the matches and no header. *)
Lemma grepLines_run (p : str) (found : list (Z * str))
    (rest : list GrepMatch) (lines : list str) :
  grepLines (matchesOf (p, found) ++ rest) (Some p) lines
  = grepLines rest (Some p) (lines ++ (matchLine <$> matchesOf (p, found))).
Proof.
  revert lines. induction found as [|hit found IH]; intros lines.
  - simpl. by rewrite app_nil_r.
  - unfold matchesOf in *. cbn [fst snd fmap list_fmap app] in *.
    cbn [grepLines match_path]. rewrite decide_True by done.
    rewrite IH. by rewrite <- app_assoc.
Qed.

Lemma grepLines_groups (groups : list (str * list (Z * str))) :
  forall (currentFile : option str) (lines : list str),
    Forall (fun group => group.2 <> []) groups ->
    (forall i p q,
        (fst <$> groups) !! i = Some p ->
        (fst <$> groups) !! S i = Some q -> p <> q) ->
    (forall p, head (fst <$> groups) = Some p -> currentFile <> Some p) ->
    grepLines (groups ≫= matchesOf) currentFile lines
    = lines
        ++ (groups ≫= fun group =>
              headerLine group.1 :: (matchLine <$> matchesOf group)).
Proof.
  induction groups as [|[p found] groups IH];
    intros currentFile lines Hfound Hadjacent Hfirst.
  - simpl. by rewrite app_nil_r.
  - apply Forall_cons in Hfound as [Hne Hfound]. cbn [snd] in Hne.
    destruct found as [|hit found]; [done|].
    rewrite !bind_cons. cbn [fst].
    change (matchesOf (p, hit :: found))
      with (mkMatch p hit.1 hit.2 :: matchesOf (p, found)).
    rewrite <- app_comm_cons. cbn [grepLines match_path].
    rewrite decide_False
      by (intros Heq; by apply (Hfirst p)).
    rewrite grepLines_run. rewrite IH.
    + rewrite fmap_cons. rewrite <- !app_assoc. done.
    + done.
    + intros i q r Hq Hr. by apply (Hadjacent (S i) q r).
    + intros q Hq [= ->]. apply (Hadjacent 0%nat q q); [done| |done].
      destruct groups as [|[q' found'] groups]; [done|].
      by injection Hq as ->.
Qed.

Section WithPlatform.
Context `{Platform}.

(** When the backend lists at least one entry and no listed path holds a
    newline, the ls tool resolves to one line per entry, in the order of
    the listing, and each line begins with the path of its entry. The
    backend is asked for [/] when the path of the call is omitted or
    empty. *)
Theorem lsTool_lines (backend : ToolBackendOrFactory World Store)
    (input_path : option str) (config : ToolConfig) (s : Sys World)
    (info : FileEntry) (rest : list FileEntry) (w' : World) :
  let path := or_else input_path (lit "/") in
  let infos := info :: rest in
  tb_lsInfo
    (getToolBackend backend
       (mkStateAndStore (currentTaskInput config) (config_store config)))
    path (world s) = (Ok infos, w') ->
  Forall (fun info => no_nl (entry_path info)) infos ->
  exists text,
    lsTool backend input_path config s = (Ok text, mkSys w' (console s))
    /\ split nl text = lsLine <$> infos
    /\ Forall2 (fun info line => entry_path info `prefix_of` line)
         infos (split nl text).
Proof.
  intros path infos Hls Hpaths. unfold lsTool, bind, await.
  fold path. rewrite Hls. eexists. split; [reflexivity|].
  assert (split nl (join [nl] (map lsLine infos)) = lsLine <$> infos)
    as Hsplit.
  { apply split_join; [done|].
    apply Forall_fmap. eapply Forall_impl; [exact Hpaths|].
    intros entry. apply lsLine_no_nl. }
  split; [done|]. rewrite Hsplit.
  apply Forall2_fmap_r, Forall_Forall2_diag, Forall_forall.
  intros entry _. apply lsLine_prefix.
Qed.

(** When the backend's matches come as runs, each run the matches of
    one file and no two neighbouring runs of the same file, the grep tool
    resolves to the text made, run after run, of a header (an empty line
    and then the path with a colon) and one line per match. A file whose
    matches come in two runs apart gets its header twice. *)
Theorem grepTool_groups (backend : ToolBackendOrFactory World Store)
    (pattern : str) (input_path glob : option str) (config : ToolConfig)
    (s : Sys World) (groups : list (str * list (Z * str))) (w' : World) :
  tb_grepRaw
    (getToolBackend backend
       (mkStateAndStore (currentTaskInput config) (config_store config)))
    pattern (default (lit "/") input_path) glob (world s)
  = (Ok (GrepMatches (groups ≫= matchesOf)), w') ->
  groups <> [] ->
  Forall (fun group => group.2 <> []) groups ->
  (forall i p q,
      (fst <$> groups) !! i = Some p ->
      (fst <$> groups) !! S i = Some q -> p <> q) ->
  grepTool backend pattern input_path glob config s
  = (Ok (join [nl]
           (groups ≫= fun group =>
              headerLine group.1 :: (matchLine <$> matchesOf group))),
     mkSys w' (console s)).
Proof.
  intros Hgrep Hne Hfound Hadjacent. unfold grepTool, bind, await.
  rewrite Hgrep.
  destruct (groups ≫= matchesOf) as [|m matches] eqn:Hmatches.
  - destruct groups as [|[p found] groups]; [done|].
    apply Forall_cons in Hfound as [Hfirst _]. cbn [snd] in Hfirst.
    destruct found; [done|]. by rewrite bind_cons in Hmatches.
  - rewrite <- Hmatches. rewrite grepLines_groups; [done..|].
    intros p _. done.
Qed.

End WithPlatform.

(** A directory, a file with a size and a file of size zero. *)
Lemma lsTool_lines_witness :
  exists text,
    lsTool (H := Sample.platform) ToolCases.on_shelf None Sample.tool_config
      Sample.start
    = (Ok text, Sample.start)
    /\ split nl text
       = [lit "/src (directory)"; lit "/a.txt (12 bytes)"; lit "/empty"].
Proof.
  destruct (lsTool_lines (H := Sample.platform) ToolCases.on_shelf None
              Sample.tool_config Sample.start
              (mkEntry (lit "/src") (Some true) None)
              [mkEntry (lit "/a.txt") (Some false) (Some 12);
               mkEntry (lit "/empty") None (Some 0)] [])
    as (text & Hrun & Hlines & _).
  - reflexivity.
  - by repeat constructor.
  - exists text. split; [exact Hrun|]. rewrite Hlines. reflexivity.
Defined.

(** Two matches in one file, one in another. *)
Lemma grepTool_groups_witness :
  grepTool (H := Sample.platform) ToolCases.on_shelf (lit "foo") None None
    Sample.tool_config Sample.start
  = (Ok (join [nl]
           [[nl] ++ lit "/a.txt:"; lit "  3: foo"; lit "  7: foo bar";
            [nl] ++ lit "/b.txt:"; lit "  1: foo"]),
     Sample.start).
Proof.
  rewrite (grepTool_groups (H := Sample.platform) ToolCases.on_shelf
             (lit "foo") None None Sample.tool_config Sample.start
             ToolCases.hits []).
  - reflexivity.
  - reflexivity.
  - done.
  - by repeat constructor.
  - intros i p q Hp Hq. destruct i as [|[|i]]; [|done..].
    injection Hp as <-. injection Hq as <-. done.
Defined.

End ToolOutput.

(** ** Listing the skills of a source *)
Module SkillsListing.
Import JS JSFacts Eff Types Skills.
Local Open Scope Z_scope.

Lemma bind_ext {W A B} (m : M W A) (k k' : A -> M W B) (s : Sys W) :
  (forall a s1, k a s1 = k' a s1) -> bind m k s = bind m k' s.
Proof. intros Hk. unfold bind. by destruct (m s) as [[a|e] s1]. Qed.


(** Splitting at a separator splits the text before it and the text
    after it. *)
Lemma split_by_app (p : ascii -> bool) (a : str) (c : ascii) (r : str) :
  p c = true ->
  split_by p (a ++ c :: r) = split_by p a ++ split_by p r.
Proof.
  intros Hc. induction a as [|a0 a IH]; simpl.
  - by rewrite Hc.
  - destruct (p a0); [by rewrite IH|]. rewrite IH.
    pose proof (split_by_nonempty p a) as Hne.
    by destruct (split_by p a).
Qed.

Lemma last_component (p : ascii -> bool) (dir : str) (sep : ascii)
    (name : str) :
  p sep = true -> Forall (fun c => p c = false) name ->
  last (split_by p (dir ++ sep :: name)) = Some name.
Proof.
  intros Hsep Hname. rewrite split_by_app by done.
  rewrite last_app. by rewrite split_by_single.
Qed.

(** The name of a directory entry is the last component of its path, for
    either separator, with or without one separator at the end of the
    path. *)
Theorem entry_name_last_component (dir name : str) (sep : ascii) :
  is_path_sep sep = true ->
  Forall (fun c => is_path_sep c = false) name ->
  (name <> [] -> entry_name (dir ++ sep :: name) = name)
  /\ (forall sep',
        is_path_sep sep' = true ->
        entry_name (dir ++ sep :: name ++ [sep']) = name).
Proof.
  intros Hsep Hname. split.
  - intros Hne. unfold entry_name, strip_trailing_sep, ends_with_sep.
    destruct (last name) as [c|] eqn:Hlast;
      [|by apply last_None in Hlast].
    rewrite last_app, last_cons, Hlast.
    apply last_Some_elem_of in Hlast.
    rewrite (proj1 (Forall_forall _ _) Hname c Hlast).
    by rewrite last_component.
  - intros sep' Hsep'.
    unfold entry_name, strip_trailing_sep, ends_with_sep.
    rewrite app_comm_cons, app_assoc, last_snoc, Hsep'.
    rewrite length_app. cbn [length].
    replace (length (dir ++ sep :: name) + 1 - 1)%nat
      with (length (dir ++ sep :: name)) by lia.
    rewrite take_app_length. by rewrite last_component.
Qed.

Section WithPlatform.
Context `{Platform}.

(** Entries that are not marked as directories play no part in the scan:
    no file is asked for on their behalf, and the result is that of the
    scan of the directories alone. *)
Theorem scanEntries_directories_only (backend : BackendProtocol World)
    (normalizedPath : str) (fileInfos : list FileInfo)
    (skills : list SkillMetadata) (s : Sys World) :
  scanEntries backend normalizedPath fileInfos skills s
  = scanEntries backend normalizedPath
      (List.filter (fun info => default false (is_dir info)) fileInfos)
      skills s.
Proof.
  revert skills s. induction fileInfos as [|info rest IH]; intros skills s;
    [done|].
  cbn [scanEntries List.filter].
  destruct (default false (is_dir info)) eqn:Hdir; cbn [negb]; [|apply IH].
  cbn [scanEntries]. rewrite Hdir. cbn [negb].
  apply bind_ext. intros [content|] s1; [|apply IH].
  destruct (parseSkillMetadataFromContent content _ _); apply IH.
Qed.


(** The loop over the sources never rejects, whatever the backend does:
    the hook resolves in every case, and when skills are held already,
    in the closure or in the state, it touches neither the backend nor
    the console. *)
Theorem skills_beforeAgent_resolves (backend : BackendOrFactory World Store)
    (sources : list str) (loadedSkills : list SkillMetadata)
    (state : AgentState) (s : Sys World) :
  (exists kept returned s',
      beforeAgent backend sources loadedSkills state s
      = (Ok (kept, returned), s'))
  /\ (loadedSkills <> [] ->
      beforeAgent backend sources loadedSkills state s
      = (Ok (loadedSkills, None), s))
  /\ (forall skill restored,
        loadedSkills = [] ->
        skillsMetadata state = Some (skill :: restored) ->
        beforeAgent backend sources loadedSkills state s
        = (Ok (skill :: restored, None), s)).
Proof.
  split; [|split].
  - unfold beforeAgent. destruct loadedSkills as [|held rest];
      [|by eexists _, _, _].
    destruct (skillsMetadata state) as [[|skill restored]|];
      try (by eexists _, _, _);
      unfold bind; rewrite SkillsProofs.loadSources_listings;
      by eexists _, _, _.
  - intros Hheld. unfold beforeAgent. by destruct loadedSkills.
  - intros skill restored -> Hstate. unfold beforeAgent. by rewrite Hstate.
Qed.

End WithPlatform.

(** The path of a skill directory, with and without a slash at its end,
    and in the notation of Windows. *)
Lemma entry_name_last_component_witness :
  entry_name (lit "/skills/base/code-review") = lit "code-review"
  /\ entry_name (lit "C:\skills\code-review\") = lit "code-review".
Proof.
  split.
  - apply (entry_name_last_component (lit "/skills/base") (lit "code-review")
             "/"%char); [reflexivity|by repeat constructor|done].
  - apply (entry_name_last_component (lit "C:\skills") (lit "code-review")
             "\"%char); [reflexivity|by repeat constructor|reflexivity].
Defined.


(** Skills held in the closure: the hook returns at once. *)
Lemma skills_beforeAgent_resolves_witness :
  beforeAgent (H := Sample.platform) Sample.on_locked [lit "/skills/base"]
    [Sample.base_skill] empty_state Sample.start
  = (Ok ([Sample.base_skill], None), Sample.start).
Proof.
  destruct (skills_beforeAgent_resolves (H := Sample.platform)
              Sample.on_locked [lit "/skills/base"] [Sample.base_skill]
              empty_state Sample.start) as (_ & Hheld & _).
  by apply Hheld.
Defined.

End SkillsListing.

(** ** The order of the merged skills, and merging twice *)
Module SkillsOrder.
Import JS JSFacts Eff Types Skills SkillsProofs.
Local Open Scope Z_scope.

Lemma Map_set_fresh {V} (key : str) (v : V) (m : list (str * V)) :
  key ∉ m.*1 -> Map_set key v m = m ++ [(key, v)].
Proof.
  induction m as [|[k0 v0] m IH]; intros Hfresh; [done|].
  rewrite fmap_cons in Hfresh. apply not_elem_of_cons in Hfresh as [Hne Hm].
  cbn [Map_set]. cbn [fst] in Hne. rewrite decide_False by done.
  by rewrite IH.
Qed.

Lemma Map_set_present {V} (key : str) (v : V) (m : list (str * V)) :
  NoDup m.*1 -> key ∈ m.*1 ->
  Map_set key v m
  = (fun entry => if decide (entry.1 = key) then (key, v) else entry) <$> m.
Proof.
  induction m as [|[k0 v0] m IH]; intros Hnd Hin.
  { by apply elem_of_nil in Hin. }
  rewrite fmap_cons in Hnd, Hin. apply NoDup_cons in Hnd as [Hk0 Hnd].
  cbn [fst] in *. cbn [Map_set]. rewrite fmap_cons. cbn [fst].
  destruct (decide (k0 = key)) as [->|Hne].
  - f_equal. clear IH Hin Hnd. induction m as [|[k1 v1] m IH]; [done|].
    rewrite fmap_cons in Hk0. apply not_elem_of_cons in Hk0 as [Hk1 Hm].
    rewrite fmap_cons. cbn [fst] in *. rewrite decide_False by done.
    by rewrite <- IH.
  - f_equal. apply IH; [done|].
    apply elem_of_cons in Hin as [?|?]; [congruence|done].
Qed.

Lemma latest_named_absent (n : str) (skills : list SkillMetadata) :
  n ∉ name <$> skills -> latest_named n skills = None.
Proof.
  intros Habsent. destruct (latest_named n skills) as [skill|] eqn:Hl; [|done].
  apply latest_named_name in Hl as [<- Hin]. exfalso. apply Habsent.
  by apply list_elem_of_fmap_2.
Qed.

Lemma filter_ext_elem {A} (P Q : A -> Prop) `{forall x, Decision (P x)}
    `{forall x, Decision (Q x)} (l : list A) :
  (forall x, x ∈ l -> P x <-> Q x) -> filter P l = filter Q l.
Proof.
  induction l as [|x l IH]; intros Hext; [done|].
  rewrite !filter_cons.
  rewrite IH by (intros y Hy; apply Hext; by right).
  assert (P x <-> Q x) as Hx by (apply Hext; by left).
  destruct (decide (P x)) as [Hp|Hp], (decide (Q x)) as [Hq|Hq];
    tauto || done.
Qed.

(** Setting skills of names new to the registry, no name twice, appends
    them in their order. *)
Lemma set_all_fresh (skills : list SkillMetadata)
    (m : list (str * SkillMetadata)) :
  NoDup (name <$> skills) ->
  (forall skill, skill ∈ skills -> name skill ∉ m.*1) ->
  set_all skills m = m ++ ((fun skill => (name skill, skill)) <$> skills).
Proof.
  revert m. induction skills as [|skill skills IH]; intros m Hnd Hfresh.
  - simpl. by rewrite app_nil_r.
  - rewrite fmap_cons in Hnd. apply NoDup_cons in Hnd as [Hskill Hnd].
    change (set_all (skill :: skills) m)
      with (set_all skills (Map_set (name skill) skill m)).
    rewrite Map_set_fresh by (apply Hfresh; by left).
    rewrite IH; [by rewrite fmap_cons, <- app_assoc|done|].
    intros other Hother. rewrite fmap_app, elem_of_app.
    intros [Hm|Hnew].
    + by apply (Hfresh other (list_elem_of_further _ _ _ Hother)).
    + apply list_elem_of_singleton in Hnew. cbn [fst] in Hnew.
      apply Hskill. rewrite <- Hnew. by apply list_elem_of_fmap_2.
Qed.

(** Setting an update without a repeated name: entries in the registry
    are replaced where they stand, new names are appended in the order of
    the update. *)
Lemma set_all_override (update : list SkillMetadata)
    (m : list (str * SkillMetadata)) :
  NoDup (name <$> update) -> NoDup m.*1 ->
  set_all update m
  = ((fun entry => (entry.1, default entry.2 (latest_named entry.1 update)))
       <$> m)
      ++ ((fun skill => (name skill, skill))
            <$> filter (fun skill => name skill ∉ m.*1) update).
Proof.
  revert m. induction update as [|x update IH]; intros m Hnd Hm.
  - simpl. rewrite app_nil_r. rewrite <- (list_fmap_id m) at 1.
    apply list_fmap_ext. by intros i [k v] _.
  - rewrite fmap_cons in Hnd. apply NoDup_cons in Hnd as [Hx Hnd].
    change (set_all (x :: update) m)
      with (set_all update (Map_set (name x) x m)).
    pose proof (latest_named_absent _ _ Hx) as Hnone.
    rewrite IH by (done || by apply Map_set_NoDup).
    rewrite Map_set_keys.
    destruct (decide (name x ∈ m.*1)) as [Hin|Hnin].
    + rewrite Map_set_present by done.
      rewrite filter_cons_False by (intros Hn; by apply Hn).
      f_equal. rewrite <- list_fmap_compose.
      apply list_fmap_ext. intros i [k v] _. cbn [compose fst snd].
      rewrite latest_named_cons.
      destruct (decide (k = name x)) as [->|Hne]; cbn [fst snd].
      * rewrite Hnone. cbn [default]. by rewrite decide_True.
      * destruct (latest_named k update); [done|].
        by rewrite decide_False by congruence.
    + rewrite Map_set_fresh by done.
      rewrite filter_cons_True by done.
      rewrite fmap_app, fmap_cons. cbn [fmap list_fmap fst snd].
      rewrite Hnone. cbn [default]. rewrite <- app_assoc. f_equal.
      * apply Forall_fmap_ext, Forall_forall. intros [k v] Hkv.
        cbn [fst snd].
        rewrite latest_named_cons.
        destruct (latest_named k update); [done|].
        rewrite decide_False; [done|]. intros Hk. apply Hnin.
        rewrite Hk. by apply (list_elem_of_fmap_2 fst) in Hkv.
      * cbn [app]. f_equal. f_equal. apply filter_ext_elem.
        intros skill Hskill. rewrite elem_of_app, list_elem_of_singleton.
        split; [tauto|]. intros Hout [Hold|Hnew]; [done|].
        apply Hx. rewrite <- Hnew. by apply list_elem_of_fmap_2.
Qed.

(** When neither list repeats a name and both are non-empty, the merged
    list keeps the current skills in their places, each replaced by the
    update's skill of the same name if there is one, and the skills of
    the update under new names follow in the order of the update. *)
Theorem skillsMetadataReducer_order (c : SkillMetadata)
    (cs : list SkillMetadata) (u : SkillMetadata) (us : list SkillMetadata) :
  NoDup (name <$> c :: cs) ->
  NoDup (name <$> u :: us) ->
  skillsMetadataReducer (Some (c :: cs)) (Some (u :: us))
  = ((fun skill => default skill (latest_named (name skill) (u :: us)))
       <$> c :: cs)
      ++ filter (fun skill => name skill ∉ name <$> c :: cs) (u :: us).
Proof.
  intros Hc Hu.
  change (skillsMetadataReducer (Some (c :: cs)) (Some (u :: us)))
    with (Map_values (set_all (u :: us) (set_all (c :: cs) []))).
  rewrite (set_all_fresh (c :: cs) []); [|done|].
  2: { intros skill _. apply not_elem_of_nil. }
  rewrite app_nil_l.
  assert (((fun skill => (name skill, skill)) <$> c :: cs).*1
          = name <$> c :: cs) as Hkeys.
  { rewrite <- list_fmap_compose. by apply list_fmap_ext. }
  rewrite set_all_override by (done || by rewrite Hkeys).
  rewrite Hkeys. unfold Map_values.
  rewrite fmap_app, <- !list_fmap_compose. f_equal.
  rewrite <- (list_fmap_id (filter _ (u :: us))) at 2.
  by apply list_fmap_ext.
Qed.

Lemma set_all_names_present (skills : list SkillMetadata)
    (m : list (str * SkillMetadata)) :
  (forall skill, skill ∈ skills -> name skill ∈ m.*1) ->
  (set_all skills m).*1 = m.*1.
Proof.
  revert m. induction skills as [|skill skills IH]; intros m Hin; [done|].
  change (set_all (skill :: skills) m)
    with (set_all skills (Map_set (name skill) skill m)).
  assert ((Map_set (name skill) skill m).*1 = m.*1) as Hkeys.
  { rewrite Map_set_keys, decide_True; [done|]. apply Hin. by left. }
  rewrite IH; [done|]. intros other Hother. rewrite Hkeys.
  apply Hin. by right.
Qed.

Lemma set_all_names_registered (skills : list SkillMetadata)
    (m : list (str * SkillMetadata)) (skill : SkillMetadata) :
  skill ∈ skills -> name skill ∈ (set_all skills m).*1.
Proof.
  intros Hin.
  destruct (Map_get (name skill) (set_all skills m)) as [found|] eqn:Hget.
  - apply Map_get_elem in Hget. by apply (list_elem_of_fmap_2 fst) in Hget.
  - rewrite set_all_get in Hget.
    destruct (latest_named (name skill) skills) eqn:Hl; [done|].
    unfold latest_named in Hl. apply last_None in Hl.
    assert (skill ∈ filter (fun other => name other = name skill) skills)
      as Hfilter by (by apply list_elem_of_filter).
    rewrite Hl in Hfilter. by apply elem_of_nil in Hfilter.
Qed.

(** Two registries with the same keys in the same order, none repeated,
    and the same lookups are the same. *)
Lemma registry_ext {V} (a b : list (str * V)) :
  NoDup a.*1 -> a.*1 = b.*1 ->
  (forall k, Map_get k a = Map_get k b) -> a = b.
Proof.
  revert b. induction a as [|[k v] a IH]; intros b Hnd Hkeys Hget.
  - by destruct b.
  - destruct b as [|[k' v'] b]; [done|].
    rewrite !fmap_cons in Hkeys. cbn [fst] in Hkeys.
    injection Hkeys as <- Hkeys.
    rewrite fmap_cons in Hnd. apply NoDup_cons in Hnd as [Hk Hnd].
    cbn [fst] in Hk.
    pose proof (Hget k) as Hv. unfold Map_get in Hv. cbn [find fst] in Hv.
    rewrite !bool_decide_eq_true_2 in Hv by done. injection Hv as <-.
    f_equal. apply IH; [done|done|].
    intros k0. destruct (decide (k0 = k)) as [->|Hne].
    + rewrite !Map_get_fresh; [done|by rewrite <- Hkeys|done].
    + specialize (Hget k0). unfold Map_get in Hget. cbn [find fst] in Hget.
      by rewrite !bool_decide_eq_false_2 in Hget by congruence.
Qed.

Lemma registry_of_values (m : list (str * SkillMetadata)) :
  keyed_by_name m -> (fun skill => (name skill, skill)) <$> Map_values m = m.
Proof.
  unfold Map_values. induction 1 as [|[k v] m Hkv _ IH]; [done|].
  rewrite !fmap_cons. cbn [fst snd] in *. by rewrite IH, Hkv.
Qed.

(** Merging the same non-empty update into the result of a merge changes
    nothing, provided the current list was not empty. (With an empty
    current list the first result is the update itself, repeated names
    included, and a second merge would remove them.) *)
Theorem skillsMetadataReducer_update_idempotent (c : SkillMetadata)
    (cs : list SkillMetadata) (u : SkillMetadata) (us : list SkillMetadata) :
  let merged := skillsMetadataReducer (Some (c :: cs)) (Some (u :: us)) in
  skillsMetadataReducer (Some merged) (Some (u :: us)) = merged.
Proof.
  intros merged. subst merged.
  change (skillsMetadataReducer (Some (c :: cs)) (Some (u :: us)))
    with (Map_values (set_all (u :: us) (set_all (c :: cs) []))).
  set (m := set_all (u :: us) (set_all (c :: cs) [])).
  destruct (set_all_invariants (c :: cs) []) as [Hnd0 Hk0];
    [constructor|constructor|].
  destruct (set_all_invariants (u :: us) _ Hnd0 Hk0) as [Hnd Hk].
  fold m in Hnd, Hk.
  assert (name u ∈ m.*1) as Hu
    by (apply set_all_names_registered; by left).
  destruct (Map_values m) as [|r rs] eqn:Hvalues.
  { unfold Map_values in Hvalues. apply fmap_nil_inv in Hvalues.
    rewrite Hvalues in Hu. by apply elem_of_nil in Hu. }
  change (skillsMetadataReducer (Some (r :: rs)) (Some (u :: us)))
    with (Map_values (set_all (u :: us) (set_all (r :: rs) []))).
  rewrite <- Hvalues.
  rewrite (set_all_fresh (Map_values m) []).
  - rewrite app_nil_l, registry_of_values by done.
    f_equal. symmetry. apply registry_ext; [done| |].
    + symmetry. apply set_all_names_present.
      intros skill Hskill. by apply set_all_names_registered.
    + intros k. rewrite set_all_get. unfold m at 1 2.
      rewrite set_all_get.
      by destruct (latest_named k (u :: us)).
  - by rewrite keyed_names.
  - intros skill _. apply not_elem_of_nil.
Qed.

(** The user's skill replaces the base skill of the same name where it
    stands; a new skill goes to the end. *)
Lemma skillsMetadataReducer_order_witness :
  let lint := mkSkill (lit "lint") (lit "Lint") (lit "/l") None None None None in
  let docs := mkSkill (lit "docs") (lit "Docs") (lit "/d") None None None None in
  skillsMetadataReducer (Some [Sample.base_skill; lint])
    (Some [docs; Sample.user_skill])
  = [Sample.user_skill; lint; docs].
Proof.
  intros lint docs.
  rewrite (skillsMetadataReducer_order Sample.base_skill [lint] docs
             [Sample.user_skill]).
  - by vm_compute.
  - apply (bool_decide_unpack _). by vm_compute.
  - apply (bool_decide_unpack _). by vm_compute.
Defined.

End SkillsOrder.

(** ** The line limit of read_file at its bounds *)
Module ReadWindow.
Import JS JSFacts Eff Types Fs ReadFileProofs.
Local Open Scope Z_scope.

Lemma slice_before_end {A} (n : Z) (l : list A) :
  n < 0 ->
  slice 0 (Some n) l = take (Z.to_nat (Z.of_nat (length l) + n)) l.
Proof.
  intros Hn. unfold slice, rel_index.
  replace (0 <? 0) with false by done.
  replace (n <? 0) with true by lia.
  replace (Z.to_nat (Z.min 0 (Z.of_nat (length l)))) with 0%nat by lia.
  rewrite drop_0. f_equal. lia.
Qed.

Section WithPlatform.
Context `{Platform}.

(** With the character cap off, what read_file returns is set by the
    line limit [L] alone: the backend's text as it is when it has at most
    [L] lines; its first [L] lines when it has more and [L] is not
    negative, so nothing at all for a limit of 0; and for a negative
    limit the text without its last [-L] lines. *)
Theorem read_file_line_window (backend : BackendOrFactory World Store)
    (tokenLimit : option Z) (input : ReadFileInput) (config : ToolConfig)
    (s : Sys World) (r : str) (w' : World) :
  let L := default DEFAULT_READ_LINE_LIMIT (limit input) in
  let lines := split nl r in
  read (getBackend backend
          (mkStateAndStore (currentTaskInput config) (config_store config)))
    (file_path input)
    (Some (default DEFAULT_READ_LINE_OFFSET (offset input)))
    (Some L) (world s) = (Ok r, w') ->
  truthy_limit tokenLimit = None ->
  readFileTool backend tokenLimit input config s
  = (Ok (if decide (Z.of_nat (length lines) <= L) then r
         else if decide (0 <= L) then join [nl] (take (Z.to_nat L) lines)
         else join [nl]
                (take (Z.to_nat (Z.of_nat (length lines) + L)) lines)),
     mkSys w' (console s)).
Proof.
  intros L lines Hread Hoff.
  rewrite (readFileTool_result _ _ _ _ _ _ _ Hread).
  unfold charCapped. rewrite Hoff. fold L. unfold lineLimited. fold lines.
  f_equal. f_equal.
  destruct (decide (Z.of_nat (length lines) <= L)) as [Hfits|Hmore].
  - by replace (Z.of_nat (length lines) >? L) with false by lia.
  - replace (Z.of_nat (length lines) >? L) with true by lia.
    destruct (decide (0 <= L)) as [Hpos|Hneg].
    + by rewrite slice_head.
    + rewrite slice_before_end by lia. done.
Qed.

End WithPlatform.

(** A file of three lines read with a limit of -1: two lines come back. *)
Lemma read_file_line_window_witness :
  readFileTool (H := Sample.platform) Sample.on_disk None
    (Sample.reading (-1)) Sample.tool_config
    (Sample.with_file (Sample.lines_of 3 (lit "x")))
  = (Ok (lit "x" ++ [nl] ++ lit "x"),
     Sample.with_file (Sample.lines_of 3 (lit "x"))).
Proof.
  rewrite (read_file_line_window (H := Sample.platform) Sample.on_disk None
             (Sample.reading (-1)) Sample.tool_config
             (Sample.with_file (Sample.lines_of 3 (lit "x")))
             (Sample.lines_of 3 (lit "x"))
             [(lit "/f.txt", Sample.lines_of 3 (lit "x"))]).
  - reflexivity.
  - reflexivity.
  - reflexivity.
Defined.

End ReadWindow.

(** ** Rejections around the eviction wrapper *)
Module EvictionErrors.
Import JS JSFacts Eff Types Fs EvictionProofs.
Local Open Scope Z_scope.

Section WithPlatform.
Context `{Platform}.

(** When the handler rejects, the wrapper rejects with the same error and
    leaves the state as the handler left it, whatever the options and the
    tool: nothing is written. *)
Theorem handler_rejection_propagates (backend : BackendOrFactory World Store)
    (tokenLimit : option Z) (request : ToolCallRequest)
    (handler : ToolHandler) (e : JsError) (s0 s : Sys World) :
  handler request s0 = (Thrown e, s) ->
  wrapToolCall backend tokenLimit request handler s0 = (Thrown e, s).
Proof.
  intros Hh. unfold wrapToolCall.
  destruct (truthy_limit tokenLimit) as [limit|]; [|done].
  destruct (match toolCall request ≫= tc_name with
            | Some toolName => _
            | None => false
            end); [done|].
  unfold bind at 1. by rewrite Hh.
Qed.

(** When the write of a text above the threshold rejects, the wrapper
    rejects with that error: the result of the tool is lost to the
    caller, unlike with a write that resolves to an error, which keeps
    the message. *)
Theorem write_rejection_propagates (backend : BackendOrFactory World Store)
    (limit : Z) (request : ToolCallRequest) (handler : ToolHandler)
    (msg : ToolMessage) (content : str) (e : JsError) (s0 s : Sys World)
    (w' : World) :
  limit <> 0 ->
  excluded_from_eviction request = false ->
  handler request s0 = (Ok (ResultMessage msg), s) ->
  msg_content msg = ContentText content ->
  limit * NUM_CHARS_PER_TOKEN < strlen content ->
  write (evictionBackend backend request) (evictPathOf request msg)
    content (world s) = (Thrown e, w') ->
  wrapToolCall backend (Some limit) request handler s0
  = (Thrown e, mkSys w' (console s)).
Proof.
  intros Hl Hex Hh Hc Hlen Hw.
  rewrite (wrapToolCall_message _ _ _ _ _ _ _ Hl Hex Hh).
  unfold processToolMessage. rewrite Hc.
  replace (strlen content >? limit * NUM_CHARS_PER_TOKEN) with true by lia.
  unfold bind, await.
  unfold evictionBackend, evictPathOf in Hw. by rewrite Hw.
Qed.

End WithPlatform.

Lemma handler_rejection_propagates_witness :
  wrapToolCall (H := Sample.platform) Sample.on_disk (Some 5)
    Cases.search_request Cases.failing Sample.start
  = (Thrown (mkError (lit "tool failed")), Sample.start).
Proof.
  apply (handler_rejection_propagates (H := Sample.platform)).
  reflexivity.
Defined.

Lemma write_rejection_propagates_witness :
  wrapToolCall (H := Sample.platform) Cases.on_full (Some 5)
    Cases.search_request (Sample.answering (ResultMessage Cases.big))
    Sample.start
  = (Thrown (mkError (lit "disk full")), Sample.start).
Proof.
  apply (write_rejection_propagates (H := Sample.platform) Cases.on_full 5
           Cases.search_request (Sample.answering (ResultMessage Cases.big))
           Cases.big (Sample.long_line 21) (mkError (lit "disk full"))
           Sample.start Sample.start []).
  - done.
  - reflexivity.
  - reflexivity.
  - reflexivity.
  - by vm_compute.
  - reflexivity.
Defined.

End EvictionErrors.
